(** * go-audio2org: the transcription pipeline of [main.go]

    A shallow embedding of [main.go].  Go strings are byte strings, modelled
    as [string] (a list of 8-bit [ascii]).  The Go standard-library functions
    that [main.go] calls ([path/filepath], [strings], [fmt], [time]) are
    modelled in modules of the same name, for a Unix target (path separator
    [/], no volume names).  The program itself is written in a small
    state-and-exit monad over a model of the process environment, the file
    system and the two remote endpoints. *)

From Stdlib Require Import String Ascii ZArith Lia List Bool DecimalString DecimalNat.
From stdpp Require Import gmap strings list fin_maps.

#[local] Arguments String.append !s1 s2 : simpl nomatch.

(** ** Byte strings *)

Module bytes.

(** [s[:n]] for [n <= len(s)]. *)
Fixpoint take (n : nat) (s : string) : string :=
  match n, s with
  | S m, String c r => String c (take m r)
  | _, _ => EmptyString
  end.

(** [s[n:]] for [n <= len(s)]. *)
Fixpoint drop (n : nat) (s : string) : string :=
  match n, s with
  | S m, String c r => drop m r
  | _, _ => s
  end.

(** Every byte of [s] satisfies [p]. *)
Fixpoint all (p : ascii -> bool) (s : string) : bool :=
  match s with
  | EmptyString => true
  | String c r => p c && all p r
  end.

Fixpoint repeat (c : ascii) (n : nat) : string :=
  match n with
  | 0 => EmptyString
  | S m => String c (repeat c m)
  end.

(** [s1] is a suffix of [s2]. *)
Definition hasSuffix (s suffix : string) : bool :=
  (String.length suffix <=? String.length s) &&
  String.eqb (drop (String.length s - String.length suffix) s) suffix.

End bytes.

(** ** Outcomes of Go code that can stop the process

  [log.Fatal] prints its message through the logger and calls [os.Exit(1)];
  a run-time panic (an index or slice bound out of range) is raised by the
  Go runtime instead: nothing goes through the logger and the exit status
  is 2. *)

Inductive Outcome (A : Type) : Type :=
| Done (a : A)
| Fatal
| Panic (msg : string).
Arguments Done {A} a.
Arguments Fatal {A}.
Arguments Panic {A} msg.

(** [s[:k]] with Go's bounds check; [k] is a signed [int]. *)
Definition sliceTo (s : string) (k : Z) : Outcome string :=
  if ((0 <=? k) && (k <=? Z.of_nat (String.length s)))%Z
  then Done (bytes.take (Z.to_nat k) s)
  else Panic "slice bounds out of range".

(** ** [fmt] *)

Module fmt.

Definition extra (args : list string) : string :=
  match args with
  | [] => ""
  | _ => "%!(EXTRA " +:+ String.concat ", " (map (fun a => "string=" +:+ a) args) +:+ ")"
  end.

(** [fmt.Sprintf] on string operands: the verbs [%s] and [%v] print the
    next operand as it is, [%%] prints a percent sign; a missing operand,
    a surplus operand and any other verb print Go's error markers. *)
Fixpoint Sprintf (format : string) (args : list string) {struct format} : string :=
  match format with
  | EmptyString => extra args
  | String c rest =>
      if Ascii.eqb c "%" then
        match rest with
        | EmptyString => "%!(NOVERB)"
        | String v rest' =>
            if Ascii.eqb v "%" then String "%" (Sprintf rest' args)
            else
              match args with
              | [] => "%!" +:+ String v "(MISSING)" +:+ Sprintf rest' []
              | a :: args' =>
                  if Ascii.eqb v "s" || Ascii.eqb v "v"
                  then a +:+ Sprintf rest' args'
                  else "%!" +:+ String v "(string=" +:+ a +:+ ")" +:+ Sprintf rest' args'
              end
        end
      else String c (Sprintf rest args)
  end.

End fmt.

(** ** [strings] *)

Module strings.

Definition HasSuffix (s suffix : string) : bool := bytes.hasSuffix s suffix.

Definition TrimSuffix (s suffix : string) : string :=
  if HasSuffix s suffix
  then bytes.take (String.length s - String.length suffix) s
  else s.

Definition Join (elems : list string) (sep : string) : string :=
  String.concat sep elems.

End strings.

(** ** [time] *)

Module time.

(** A wall-clock reading in the local time zone, as [Time.Date] and
    [Time.Clock] return it. *)
Record Time : Type := mkTime {
  Year : nat; Month : nat; Day : nat;
  Hour : nat; Minute : nat; Second : nat
}.

(** [appendInt]: decimal digits, zero-padded on the left to [width]. *)
Definition appendInt (x width : nat) : string :=
  let digits := NilZero.string_of_uint (Nat.to_uint x) in
  bytes.repeat "0" (width - String.length digits) +:+ digits.

(** The chunks a layout string is cut into. *)
Inductive chunk : Type :=
| stdLongYear | stdZeroMonth | stdZeroDay
| stdHour | stdZeroMinute | stdZeroSecond
| literal (s : string).

Definition formatChunk (t : Time) (c : chunk) : string :=
  match c with
  | stdLongYear => appendInt (Year t) 4
  | stdZeroMonth => appendInt (Month t) 2
  | stdZeroDay => appendInt (Day t) 2
  | stdHour => appendInt (Hour t) 2
  | stdZeroMinute => appendInt (Minute t) 2
  | stdZeroSecond => appendInt (Second t) 2
  | literal s => s
  end.

Definition Format (t : Time) (layout : list chunk) : string :=
  String.concat "" (map (formatChunk t) layout).

(** The layout ["20060102_150405"]: [2006] [01] [02] [_] [15] [04] [05]. *)
Definition layout_20060102_150405 : list chunk :=
  [stdLongYear; stdZeroMonth; stdZeroDay; literal "_";
   stdHour; stdZeroMinute; stdZeroSecond].

(** A calendar reading with a year of at most four digits. *)
Definition civil (t : Time) : Prop :=
  Year t < 100 * 100 /\ 1 <= Month t <= 12 /\ 1 <= Day t <= 31 /\
  Hour t <= 23 /\ Minute t <= 59 /\ Second t <= 59.

End time.

(** ** [path/filepath] (Unix) *)

Module filepath.

Definition Separator : ascii := "/".

Definition IsPathSeparator (c : ascii) : bool := Ascii.eqb c Separator.

(** The loop of [Ext], counting [i] one above Go's index:
    [for i := len(path)-1; i >= 0 && !IsPathSeparator(path[i]); i--]
    returning [path[i:]] at the first dot met. *)
Fixpoint extLoop (path : string) (i : nat) : string :=
  match i with
  | 0 => ""
  | S j =>
      match String.get j path with
      | None => ""
      | Some c =>
          if IsPathSeparator c then ""
          else if Ascii.eqb c "." then bytes.drop j path
          else extLoop path j
      end
  end.

Definition Ext (path : string) : string := extLoop path (String.length path).

(** [for i >= 0 && !IsPathSeparator(path[i]) { i-- }], returning [i+1]:
    the length of the prefix that ends with the last separator. *)
Fixpoint lastSeparator (path : string) (i : nat) : nat :=
  match i with
  | 0 => 0
  | S j =>
      match String.get j path with
      | None => 0
      | Some c => if IsPathSeparator c then i else lastSeparator path j
      end
  end.

(** [for len(path) > 0 && IsPathSeparator(path[len(path)-1])], returning
    the length that is left. *)
Fixpoint stripTrailing (path : string) (n : nat) : nat :=
  match n with
  | 0 => 0
  | S j =>
      match String.get j path with
      | None => n
      | Some c => if IsPathSeparator c then stripTrailing path j else n
      end
  end.

(** [rooted := os.IsPathSeparator(path[0])] *)
Definition isRooted (path : string) : bool :=
  match path with
  | String c _ => IsPathSeparator c
  | EmptyString => false
  end.

(** [r+1 == n || IsPathSeparator(path[r+1])], on the rest of the path after
    [path[r]]. *)
Definition endsElement (rest : string) : bool :=
  match rest with
  | EmptyString => true
  | String c _ => IsPathSeparator c
  end.

(** [for ; r < n && !IsPathSeparator(path[r]); r++ { out.append(path[r]) }]:
    the bytes copied, and the rest of the path. *)
Fixpoint takeElement (rest : string) : string :=
  match rest with
  | EmptyString => ""
  | String c r => if IsPathSeparator c then "" else String c (takeElement r)
  end.

Fixpoint dropElement (rest : string) : string :=
  match rest with
  | EmptyString => ""
  | String c r => if IsPathSeparator c then rest else dropElement r
  end.

(** [for out.w > dotdot && !IsPathSeparator(out.index(out.w)) { out.w-- }] *)
Fixpoint backLoop (out : string) (dotdot w : nat) : nat :=
  match w with
  | 0 => 0
  | S w' =>
      match String.get w out with
      | None => w
      | Some c =>
          if (dotdot <? w) && negb (IsPathSeparator c)
          then backLoop out dotdot w'
          else w
      end
  end.

(** [out.w--] and the loop above: the buffer cut back to its last
    separator, or to [dotdot]. *)
Definition backtrack (out : string) (dotdot : nat) : string :=
  bytes.take (backLoop out dotdot (String.length out - 1)) out.

(** The loop of [Clean], [for r < n], with the lazy buffer as the bytes
    written so far: [rest] is [path[r:]], [out] is [buf[:w]], and [fuel]
    bounds the iterations, each of which reads at least one byte. *)
Fixpoint cleanLoop (fuel : nat) (rooted : bool) (rest out : string) (dotdot : nat)
  : string :=
  match fuel with
  | 0 => out
  | S fuel' =>
      match rest with
      | EmptyString => out
      | String c r1 =>
          if IsPathSeparator c then
            cleanLoop fuel' rooted r1 out dotdot
          else if Ascii.eqb c "." && endsElement r1 then
            cleanLoop fuel' rooted r1 out dotdot
          else if Ascii.eqb c "." &&
                  match r1 with
                  | String d r2 => Ascii.eqb d "." && endsElement r2
                  | EmptyString => false
                  end
          then
            let r2 := bytes.drop 1 r1 in
            if dotdot <? String.length out then
              cleanLoop fuel' rooted r2 (backtrack out dotdot) dotdot
            else if negb rooted then
              let out1 := if 0 <? String.length out then out +:+ "/" else out in
              let out2 := out1 +:+ ".." in
              cleanLoop fuel' rooted r2 out2 (String.length out2)
            else cleanLoop fuel' rooted r2 out dotdot
          else
            let out1 :=
              if (rooted && negb (String.length out =? 1)) ||
                 (negb rooted && negb (String.length out =? 0))
              then out +:+ "/" else out in
            cleanLoop fuel' rooted (dropElement rest) (out1 +:+ takeElement rest) dotdot
      end
  end.

(** [Clean]: [.] for the empty path; otherwise the loop, started after the
    root of a rooted path, and [.] for an empty result. *)
Definition Clean (path : string) : string :=
  if String.eqb path "" then "."
  else
    let rooted := isRooted path in
    let out :=
      if rooted
      then cleanLoop (String.length path) rooted (bytes.drop 1 path) "/" 1
      else cleanLoop (String.length path) rooted path "" 0 in
    if String.length out =? 0 then "." else out.

Definition Base (path : string) : string :=
  if String.eqb path "" then "."
  else
    let path := bytes.take (stripTrailing path (String.length path)) path in
    let path := bytes.drop (lastSeparator path (String.length path)) path in
    if String.eqb path "" then "/" else path.

Definition Dir (path : string) : string :=
  Clean (bytes.take (lastSeparator path (String.length path)) path).

(** [Join]: the elements from the first non-empty one on, joined with
    separators and cleaned; the empty string when there is none. *)
Fixpoint Join (elem : list string) : string :=
  match elem with
  | [] => ""
  | e :: rest =>
      if String.eqb e "" then Join rest
      else Clean (strings.Join elem "/")
  end.

(** [Clean] told element by element: what the byte loop computes
    ([Clean_elements] below). *)

(** The path name elements: the pieces between separators. *)
Fixpoint elements (path : string) : list string :=
  match path with
  | EmptyString => [""]
  | String c rest =>
      if IsPathSeparator c then "" :: elements rest
      else
        match elements rest with
        | e :: es => String c e :: es
        | [] => [String c ""]
        end
  end.

(** One element of [Clean]'s scan.  [out] holds the elements written so
    far, the last one first.  An empty element and [.] are dropped; [..]
    removes the element before it when there is one that is not [..]
    itself, is dropped at the root, and is kept otherwise. *)
Definition cleanStep (rooted : bool) (out : list string) (e : string) : list string :=
  if String.eqb e "" || String.eqb e "." then out
  else if String.eqb e ".." then
    match out with
    | top :: below =>
        if String.eqb top ".." then (if rooted then out else e :: out)
        else below
    | [] => if rooted then out else [e]
    end
  else e :: out.

(** The elements that are left of a path, the last one first. *)
Definition scan (path : string) : list string :=
  fold_left (cleanStep (isRooted path)) (elements path) [].

(** The elements written out: after the root if the path is rooted, and
    [.] for an empty result. *)
Definition render (rooted : bool) (out : list string) : string :=
  let body := String.concat "/" (rev out) in
  if rooted then "/" +:+ body
  else if String.eqb body "" then "." else body.

End filepath.

(** ** The process and what surrounds it *)

(** The two JSON shapes the program decodes. *)
Record TranscriptionResponse : Type := { Text : string }.

Record ChoiceMessage : Type := { Content : string }.
Record Choice : Type := { Message : ChoiceMessage }.
Record OpenAIResponse : Type := { Choices : list Choice }.

Record Config : Type := mkConfig {
  AudioFilePath : string;
  TranscriptionFilePath : string;
  OutputFileName : string;
  PostProcessCmd : string;
  OpenAIAPIKey : string
}.

(** What a request carries: the multipart upload of [transcribeAudio], or
    the JSON object [reqBody] of [createEmacsOrgNotes]. *)
Inductive RequestBody : Type :=
| Multipart (param fileName content : string) (formData : gmap string string)
| ChatBody (model : string) (messages : list (gmap string string))
           (max_tokens : nat) (temperature : string).

Record Request : Type := mkRequest {
  URL : string;
  Headers : list (string * string);
  Body : RequestBody
}.

(** What [Post] returns: an error, or a response with its status code and
    body. *)
Inductive Response : Type :=
| TransportError (err : string)
| Reply (StatusCode : nat) (body : string).

(** resty's [IsError]: a status code above 399. *)
Definition IsError (StatusCode : nat) : bool := 399 <? StatusCode.

(** Everything the run observes but does not decide: the clock, the remote
    endpoints, the two parsers of library code ([godotenv]'s and
    [encoding/json]'s, [inl] carrying the error), and whether the operating
    system refuses to create a directory or to write a file. *)
Record World : Type := mkWorld {
  Now : time.Time;
  Post : Request -> Response;
  dotenvParse : string -> string + gmap string string;
  unmarshalTranscription : string -> string + TranscriptionResponse;
  unmarshalOpenAI : string -> string + OpenAIResponse;
  mkdirError : string -> option string;
  writeError : string -> option string
}.

Inductive Event : Type :=
| EvLog (msg : string)
| EvReadFile (path : string)
| EvStat (path : string)
| EvMkdir (path : string)
| EvWriteFile (path content : string)
| EvPost (req : Request).

(** The state of the process and of the file system, with the events of the
    run so far, the oldest first. *)
Record State : Type := mkState {
  env : gmap string string;
  files : gmap string string;
  dirs : gset string;
  events : list Event
}.

Definition M (A : Type) : Type := World -> State -> Outcome A * State.

Definition ret {A} (a : A) : M A := fun _ s => (Done a, s).

Definition bind {A B} (c : M A) (k : A -> M B) : M B :=
  fun w s =>
    match c w s with
    | (Done a, s') => k a w s'
    | (Fatal, s') => (Fatal, s')
    | (Panic msg, s') => (Panic msg, s')
    end.

Notation "'do' x <- c ; k" := (bind c (fun x => k))
  (at level 10, x pattern, c at level 100, k at level 200).
Notation "c ;; k" := (bind c (fun _ => k))
  (at level 100, k at level 200, right associativity).

Definition emit (e : Event) : M unit :=
  fun _ s => (Done tt, mkState (env s) (files s) (dirs s) (events s ++ [e])).

Definition liftOutcome {A} (o : Outcome A) : M A := fun _ s => (o, s).

Definition ask {A} (f : World -> A) : M A := fun w s => (Done (f w), s).

Module log.

(** [log.Println] and [log.Printf]: one entry of the standard logger. *)
Definition Print (msg : string) : M unit := emit (EvLog msg).

(** [log.Fatal] and [log.Fatalf]: one entry, then [os.Exit(1)]. *)
Definition Fatal {A} (msg : string) : M A :=
  fun _ s => (Fatal, mkState (env s) (files s) (dirs s) (events s ++ [EvLog msg])).

End log.

Module os.

Definition Getenv (key : string) : M string :=
  fun _ s => (Done (default "" (env s !! key)), s).

Definition ReadFile (path : string) : M (string + string) :=
  emit (EvReadFile path) ;;
  fun _ s =>
    match files s !! path with
    | Some content => (Done (inr content), s)
    | None => (Done (inl ("open " +:+ path +:+ ": no such file or directory")), s)
    end.

(** [_, err := os.Stat(path); os.IsNotExist(err)] *)
Definition StatIsNotExist (path : string) : M bool :=
  emit (EvStat path) ;;
  fun _ s =>
    (Done (bool_decide (path ∉ dirs s) && bool_decide (files s !! path = None)), s).

Definition Mkdir (path : string) : M (option string) :=
  emit (EvMkdir path) ;;
  fun w s =>
    match mkdirError w path with
    | Some err => (Done (Some err), s)
    | None => (Done None, mkState (env s) (files s) ({[path]} ∪ dirs s) (events s))
    end.

(** [os.WriteFile].  The files are keyed by the path as it is written, and a
    write that fails is refused before the file is opened: the truncation
    that precedes a failing write in Go is not modelled. *)
Definition WriteFile (path content : string) : M (option string) :=
  emit (EvWriteFile path content) ;;
  fun w s =>
    match writeError w path with
    | Some err => (Done (Some err), s)
    | None => (Done None, mkState (env s) (<[path := content]> (files s)) (dirs s) (events s))
    end.

End os.

Module godotenv.

(** [godotenv.Load()]: reads [.env] in the working directory and sets
    every variable of it that the environment does not have yet. *)
Definition Load : M (option string) :=
  do r <- os.ReadFile ".env";
  match r with
  | inl err => ret (Some err)
  | inr content =>
      do parsed <- ask (fun w => dotenvParse w content);
      match parsed with
      | inl err => ret (Some err)
      | inr vars =>
          fun _ s => (Done None, mkState (env s ∪ vars) (files s) (dirs s) (events s))
      end
  end.

End godotenv.

Module resty.

Definition DoPost (req : Request) : M Response :=
  emit (EvPost req) ;; ask (fun w => Post w req).

End resty.

(** ** [main.go] *)

Definition whisperURL : string := "https://api.openai.com/v1/audio/transcriptions".
Definition chatURL : string := "https://api.openai.com/v1/chat/completions".

Definition loadEnv : M unit :=
  log.Print "Loading environment variables..." ;;
  do err <- godotenv.Load;
  match err with
  | Some e => log.Print (fmt.Sprintf "No .env file found: %v" [e])
  | None => ret tt
  end.

Definition getEnv (key : string) : M string :=
  do value <- os.Getenv key;
  if String.eqb value ""
  then log.Fatal (fmt.Sprintf "%s not set in environment" [key])
  else ret value.

(** The request [transcribeAudio] builds: the bearer credential, the audio
    bytes as the form file [file] under the audio path's base name, and the
    model field. *)
Definition whisperRequest (filePath audioBytes apiKey : string) : Request :=
  mkRequest whisperURL
    [("Authorization", fmt.Sprintf "Bearer %s" [apiKey])]
    (Multipart "file" (filepath.Base filePath) audioBytes {["model" := "whisper-1"]}).

Definition transcribeAudio (filePath audioBytes apiKey : string) : M string :=
  log.Print "Sending request to Whisper API..." ;;
  do resp <- resty.DoPost (whisperRequest filePath audioBytes apiKey);
  match resp with
  | TransportError err =>
      log.Fatal (fmt.Sprintf "Error sending request to Whisper API: %v" [err])
  | Reply code body =>
      if IsError code
      then log.Fatal (fmt.Sprintf "Error response from Whisper API: %v" [body])
      else
        do decoded <- ask (fun w => unmarshalTranscription w body);
        match decoded with
        | inl err => log.Fatal (fmt.Sprintf "Error unmarshalling JSON response: %v" [err])
        | inr transcriptionResp => ret (Text transcriptionResp)
        end
  end.

Definition createOutputDir : M string :=
  let outputDir := "output" in
  do missing <- os.StatIsNotExist outputDir;
  (if missing : bool
   then
     do err <- os.Mkdir outputDir;
     match err with
     | Some e => log.Fatal (fmt.Sprintf "Error creating output directory: %v" [e])
     | None => ret tt
     end
   else ret tt) ;;
  ret outputDir.

Definition generateTimestampedFilePath (outputDir baseFileName : string) : M string :=
  do now <- ask Now;
  let timestamp := time.Format now time.layout_20060102_150405 in
  let ext := filepath.Ext baseFileName in
  do name <- liftOutcome
               (sliceTo baseFileName
                  (Z.of_nat (String.length baseFileName) - Z.of_nat (String.length ext)));
  ret (filepath.Join [outputDir; fmt.Sprintf "%s_%s%s" [name; timestamp; ext]]).

Definition writeToFile (filePath content : string) : M unit :=
  do err <- os.WriteFile filePath content;
  match err with
  | Some e => log.Fatal (fmt.Sprintf "Error writing to file: %v" [e])
  | None => log.Print (fmt.Sprintf "Content successfully written to %s" [filePath])
  end.

Definition readExistingTranscription (filePath : string) : M string :=
  log.Print (fmt.Sprintf "Reading existing transcription file: %s" [filePath]) ;;
  do r <- os.ReadFile filePath;
  match r with
  | inl err => log.Fatal (fmt.Sprintf "Error reading transcription file: %v" [err])
  | inr transcriptionBytes => ret transcriptionBytes
  end.

Definition processTranscription (config : Config) : M (string * string) :=
  if negb (String.eqb (AudioFilePath config) "") then
    log.Print (fmt.Sprintf "Reading audio file: %s" [AudioFilePath config]) ;;
    do r <- os.ReadFile (AudioFilePath config);
    match r with
    | inl err => log.Fatal (fmt.Sprintf "Error reading audio file: %v" [err])
    | inr audioBytes =>
        log.Print "Transcribing audio file..." ;;
        do transcriptionText <-
          transcribeAudio (AudioFilePath config) audioBytes (OpenAIAPIKey config);
        do outputDir <- createOutputDir;
        let outputFileName :=
          if String.eqb (OutputFileName config) "" then "transcription.txt"
          else OutputFileName config in
        do outputFilePath <- generateTimestampedFilePath outputDir outputFileName;
        writeToFile outputFilePath transcriptionText ;;
        ret (transcriptionText, outputFilePath)
    end
  else if negb (String.eqb (TranscriptionFilePath config) "") then
    do transcriptionText <- readExistingTranscription (TranscriptionFilePath config);
    ret (transcriptionText, TranscriptionFilePath config)
  else ret ("", "").

Definition generateOrgFilePath (baseFilePath : string) : string :=
  let dir := filepath.Dir baseFilePath in
  let baseName :=
    strings.TrimSuffix (filepath.Base baseFilePath) (filepath.Ext baseFilePath) in
  let orgFileName := fmt.Sprintf "%s_emacs_org_notes.org" [baseName] in
  filepath.Join [dir; orgFileName].

Definition nl : string := String "010" "".
Definition quote : string := String "034" "".

(** The raw string literal of [createPrompt], line by line. *)
Definition promptFormat : string :=
  "I need you to summarize the following content and convert it into an Emacs Org file format." +:+ nl +:+
  "Please do not include any extra commentary or explanations." +:+ nl +:+
  "Make sure the summary is detailed but concise, capturing the key points and providing enough explanation for each section. Avoid being too brief or overly terse." +:+ nl +:+
  nl +:+
  "The response should only contain the Emacs Org formatted output." +:+ nl +:+
  nl +:+
  "Use the following structure:" +:+ nl +:+
  nl +:+
  "1. The file should have a #+title: and #+author: and #+date: header using today's date in the format like " +:+ quote +:+ "<1999-10-04 Fri>" +:+ quote +:+ nl +:+
  "2. Include a " +:+ quote +:+ "Summary" +:+ quote +:+ " section that gives a brief overview of the key points, try" +:+ nl +:+
  "3. Include a " +:+ quote +:+ "Notes" +:+ quote +:+ " section, with **subsections** that organize the content logically." +:+ nl +:+
  nl +:+
  "Here is the content to summarize:" +:+ nl +:+
  nl +:+
  "%s" +:+ nl +:+
  nl +:+
  "Please format the response as a valid Emacs Org file.".

Definition createPrompt (transcriptionText : string) : string :=
  fmt.Sprintf promptFormat [transcriptionText].

(** [aiResponse.Choices[0]] with Go's bounds check. *)
Definition firstChoice (choices : list Choice) : Outcome Choice :=
  match choices with
  | c :: _ => Done c
  | [] => Panic "index out of range [0] with length 0"
  end.

(** The request [createEmacsOrgNotes] builds: one user message holding the
    prompt, the model, the token budget and the temperature. *)
Definition chatRequest (transcriptionText apiKey : string) : Request :=
  let message : gmap string string :=
    <["content" := createPrompt transcriptionText]> {["role" := "user"]} in
  let reqBody := ChatBody "gpt-4" [message] 1500 "0.7" in
  mkRequest chatURL
    [("Authorization", fmt.Sprintf "Bearer %s" [apiKey]);
     ("Content-Type", "application/json")]
    reqBody.

Definition createEmacsOrgNotes (transcriptionText apiKey baseFilePath : string) : M unit :=
  log.Print "Starting post-processing with create_emacs_org_notes command..." ;;
  log.Print "Sending request to OpenAI API..." ;;
  do resp <- resty.DoPost (chatRequest transcriptionText apiKey);
  match resp with
  | TransportError err =>
      log.Fatal (fmt.Sprintf "Error sending request to OpenAI API: %v" [err])
  | Reply code body =>
      if IsError code
      then log.Fatal (fmt.Sprintf "Error response from OpenAI API: %v" ["<nil>"])
      else
        log.Print "Parsing OpenAI API response..." ;;
        do decoded <- ask (fun w => unmarshalOpenAI w body);
        match decoded with
        | inl err => log.Fatal (fmt.Sprintf "Error unmarshalling OpenAI response: %v" [err])
        | inr aiResponse =>
            let outputFilePath := generateOrgFilePath baseFilePath in
            do choice <- liftOutcome (firstChoice (Choices aiResponse));
            writeToFile outputFilePath (Content (Message choice))
        end
  end.

(** [main], from the parsed flags on: [config] is what [parseFlags]
    returns. *)
Definition main (config : Config) : M unit :=
  loadEnv ;;
  do key <- getEnv "OPENAI_API_KEY";
  let config :=
    mkConfig (AudioFilePath config) (TranscriptionFilePath config)
             (OutputFileName config) (PostProcessCmd config) key in
  if String.eqb (AudioFilePath config) "" && String.eqb (TranscriptionFilePath config) ""
  then log.Fatal "The -file or -transcription argument is required."
  else
    do r <- processTranscription config;
    let '(transcriptionText, outputFilePath) := r in
    if String.eqb (PostProcessCmd config) "create_emacs_org_notes"
    then createEmacsOrgNotes transcriptionText (OpenAIAPIKey config) outputFilePath
    else ret tt.

(** * Vocabulary of the properties *)

(** ** Path names *)

(** Bytes that are no separator, and bytes that are neither a separator nor
    a dot. *)
Definition notSep (c : ascii) : bool := negb (filepath.IsPathSeparator c).
Definition notSepDot (c : ascii) : bool :=
  negb (filepath.IsPathSeparator c) && negb (Ascii.eqb c ".").
Definition notDot (c : ascii) : bool := negb (Ascii.eqb c ".").

(** A string with no separator in it: one path name element. *)
Definition sepFree (s : string) : Prop := bytes.all notSep s = true.
(** A string with neither a separator nor a dot in it. *)
Definition plain (s : string) : Prop := bytes.all notSepDot s = true.
(** A string with no dot in it. *)
Definition dotFree (s : string) : Prop := bytes.all notDot s = true.

(** An element that [Clean] keeps: not empty, not [.], not [..]. *)
Definition real (e : string) : Prop :=
  e <> "" /\ e <> "." /\ e <> ".." /\ sepFree e.

(** The shape of what [Clean] has written: kept elements on top of a run
    of [..] elements, and no [..] at all below a root. *)
Inductive written (rooted : bool) : list string -> Prop :=
| written_nil : written rooted []
| written_up out :
    rooted = false -> Forall (eq "..") out -> written rooted (".." :: out)
| written_real e out :
    real e -> written rooted out -> written rooted (e :: out).

(** The buffer that holds the elements [out], the last one first. *)
Definition buffer (rooted : bool) (out : list string) : string :=
  (if rooted then "/" else "") +:+ String.concat "/" (rev out).

(** The [..] elements at the bottom of what was written. *)
Fixpoint upsOf (out : list string) : list string :=
  match out with
  | [] => []
  | e :: below => if String.eqb e ".." then out else upsOf below
  end.

(** The index [dotdot]: the end of the [..] elements in the buffer. *)
Definition mark (rooted : bool) (out : list string) : nat :=
  String.length (buffer rooted (upsOf out)).

(** ** Stamps *)

Definition isDigit (c : ascii) : bool :=
  (48 <=? nat_of_ascii c) && (nat_of_ascii c <=? 57).

(** A string of exactly [n] decimal digits. *)
Definition digits (n : nat) (s : string) : Prop :=
  String.length s = n /\ bytes.all isDigit s = true.

(** The value of a string of decimal digits, read from the left onto [acc]. *)
Fixpoint digitsValueFrom (acc : nat) (s : string) : nat :=
  match s with
  | EmptyString => acc
  | String c r => digitsValueFrom (10 * acc + (nat_of_ascii c - 48)) r
  end.

Definition digitsValue (s : string) : nat := digitsValueFrom 0 s.

(** The stamp of an instant under the layout of [generateTimestampedFilePath]. *)
Definition stamp (t : time.Time) : string :=
  time.Format t time.layout_20060102_150405.

(** Bytes that may stand in a stamp: digits and the underscore. *)
Definition stampByte (c : ascii) : bool := isDigit c || Ascii.eqb c "_".

Fixpoint hasUnderscore (s : string) : bool :=
  match s with
  | EmptyString => false
  | String c r => Ascii.eqb c "_" || hasUnderscore r
  end.

(** ** The prompt *)

(** The template of [createPrompt] before and after the transcription. *)
Definition promptHead : string :=
  "I need you to summarize the following content and convert it into an Emacs Org file format." +:+ nl +:+
  "Please do not include any extra commentary or explanations." +:+ nl +:+
  "Make sure the summary is detailed but concise, capturing the key points and providing enough explanation for each section. Avoid being too brief or overly terse." +:+ nl +:+
  nl +:+
  "The response should only contain the Emacs Org formatted output." +:+ nl +:+
  nl +:+
  "Use the following structure:" +:+ nl +:+
  nl +:+
  "1. The file should have a #+title: and #+author: and #+date: header using today's date in the format like " +:+ quote +:+ "<1999-10-04 Fri>" +:+ quote +:+ nl +:+
  "2. Include a " +:+ quote +:+ "Summary" +:+ quote +:+ " section that gives a brief overview of the key points, try" +:+ nl +:+
  "3. Include a " +:+ quote +:+ "Notes" +:+ quote +:+ " section, with **subsections** that organize the content logically." +:+ nl +:+
  nl +:+
  "Here is the content to summarize:" +:+ nl +:+
  nl.

Definition promptTail : string :=
  nl +:+ nl +:+ "Please format the response as a valid Emacs Org file.".

(** ** Events of a run *)

Definition isFileOp (e : Event) : bool :=
  match e with
  | EvReadFile _ | EvStat _ | EvMkdir _ | EvWriteFile _ _ => true
  | _ => false
  end.

Definition isPost (e : Event) : bool :=
  match e with EvPost _ => true | _ => false end.

Definition isChatPost (e : Event) : bool :=
  match e with EvPost req => String.eqb (URL req) chatURL | _ => false end.

Definition isDotenvRead (e : Event) : bool :=
  match e with EvReadFile path => String.eqb path ".env" | _ => false end.

(** The files a run wrote, with what was written, in order. *)
Fixpoint writtenFiles (evs : list Event) : list (string * string) :=
  match evs with
  | [] => []
  | EvWriteFile path content :: rest => (path, content) :: writtenFiles rest
  | _ :: rest => writtenFiles rest
  end.

(** The environment once [godotenv.Load] has run. *)
Definition envAfterLoad (w : World) (s : State) : gmap string string :=
  match files s !! ".env" with
  | None => env s
  | Some content =>
      match dotenvParse w content with
      | inl _ => env s
      | inr vars => env s ∪ vars
      end
  end.

(** The credential [main] finds: the value of [OPENAI_API_KEY] once the
    [.env] file has been loaded; empty when the variable is not set. *)
Definition credential (w : World) (s : State) : string :=
  default "" (envAfterLoad w s !! "OPENAI_API_KEY").

(** What [loadEnv] logs after the read of [.env]: nothing when the file was
    loaded, the error otherwise. *)
Definition dotenvNotice (w : World) (s : State) : list Event :=
  match files s !! ".env" with
  | None =>
      [EvLog (fmt.Sprintf "No .env file found: %v"
                ["open .env: no such file or directory"])]
  | Some content =>
      match dotenvParse w content with
      | inl err => [EvLog (fmt.Sprintf "No .env file found: %v" [err])]
      | inr _ => []
      end
  end.

(** The state [loadEnv] leaves. *)
Definition afterLoadEnv (w : World) (s : State) : State :=
  mkState (envAfterLoad w s) (files s) (dirs s)
    (events s ++
     EvLog "Loading environment variables..." :: EvReadFile ".env" :: dotenvNotice w s).

(** The base name [processTranscription] stamps. *)
Definition outputName (config : Config) : string :=
  if String.eqb (OutputFileName config) "" then "transcription.txt"
  else OutputFileName config.

(** The path [generateTimestampedFilePath] computes at instant [t]. *)
Definition timestampedPath (outputDir baseFileName : string) (t : time.Time) : string :=
  let ext := filepath.Ext baseFileName in
  filepath.Join
    [outputDir;
     bytes.take (String.length baseFileName - String.length ext) baseFileName
       +:+ "_" +:+ stamp t +:+ ext].

Ltac run_ops :=
  unfold godotenv.Load, os.ReadFile, os.Getenv, os.StatIsNotExist, os.Mkdir,
    os.WriteFile, resty.DoPost, log.Print, log.Fatal, emit, ask, liftOutcome,
    bind, ret.

Ltac case_run :=
  match goal with
  | |- context [match ?x with _ => _ end] =>
      lazymatch x with
      | context [match _ with _ => _ end] => fail
      | _ => destruct x eqn:?
      end
  end; simpl.

Ltac trace_done :=
  simpl; rewrite <- ?app_assoc; simpl; reflexivity.

(** ** Configurations *)

Definition withOutputFileName (config : Config) (name : string) : Config :=
  mkConfig (AudioFilePath config) (TranscriptionFilePath config) name
    (PostProcessCmd config) (OpenAIAPIKey config).

Definition isDirOrWriteOp (e : Event) : bool :=
  match e with
  | EvStat _ | EvMkdir _ | EvWriteFile _ _ => true
  | _ => false
  end.

(** ** Sample runs *)

(** Endpoints that answer [200]: the transcription [hello world] and one
    choice with the content [#+title: Test]. *)
Definition notesWorld : World :=
  mkWorld (time.mkTime 2024 1 31 23 5 9)
    (fun _ => Reply 200 "reply")
    (fun _ => inr ∅)
    (fun _ => inr {| Text := "hello world" |})
    (fun _ => inr {| Choices := [ {| Message := {| Content := "#+title: Test" |} |} ] |})
    (fun _ => None) (fun _ => None).

(** The credential in the environment, an audio file and a transcription
    file in the working directory, no [.env] file. *)
Definition notesState : State :=
  mkState {["OPENAI_API_KEY" := "sk-test"]}
    (<["meeting.txt" := "meeting notes"]> {["talk.mp3" := "RIFF"]}) ∅ [].

Definition audioConfig : Config := mkConfig "talk.mp3" "" "" "" "sk-test".

Definition existingConfig : Config := mkConfig "" "meeting.txt" "renamed.txt" "" "sk-test".

(** A completion endpoint that answers [200] with no choices. *)
Definition emptyChoicesWorld : World :=
  mkWorld (time.mkTime 2024 1 31 23 5 9)
    (fun _ => Reply 200 "reply")
    (fun _ => inr ∅)
    (fun _ => inr {| Text := "hello world" |})
    (fun _ => inr {| Choices := [] |})
    (fun _ => None) (fun _ => None).

(** ** Stages of [main] *)

(** [main] up to the end of the transcription stage. *)
Definition transcriptionStage (config : Config) : M (string * string) :=
  loadEnv ;;
  do key <- getEnv "OPENAI_API_KEY";
  let config :=
    mkConfig (AudioFilePath config) (TranscriptionFilePath config)
             (OutputFileName config) (PostProcessCmd config) key in
  if String.eqb (AudioFilePath config) "" && String.eqb (TranscriptionFilePath config) ""
  then log.Fatal "The -file or -transcription argument is required."
  else processTranscription config.

(** The configuration with the credential [main] found. *)
Definition withCredential (config : Config) (key : string) : Config :=
  mkConfig (AudioFilePath config) (TranscriptionFilePath config)
    (OutputFileName config) (PostProcessCmd config) key.

Definition logged (s : State) (msg : string) : State :=
  mkState (env s) (files s) (dirs s) (events s ++ [EvLog msg]).

(** ** The input paths and the credential, as the specification states them *)

Definition usageMessage : string := "The -file or -transcription argument is required.".

Definition exactlyOneInput (config : Config) : bool :=
  xorb (negb (String.eqb (AudioFilePath config) ""))
       (negb (String.eqb (TranscriptionFilePath config) "")).

(** The run stops with the usage error. *)
Definition stopsWithUsageError (config : Config) (w : World) (s : State) : Prop :=
  (main config w s).1 = Fatal /\
  last (events (main config w s).2) = Some (EvLog usageMessage).

Definition withTranscriptionFilePath (config : Config) (path : string) : Config :=
  mkConfig (AudioFilePath config) path (OutputFileName config)
    (PostProcessCmd config) (OpenAIAPIKey config).

Definition bothConfig : Config := mkConfig "talk.mp3" "meeting.txt" "" "" "".

Definition noInputConfig : Config := mkConfig "" "" "" "" "".

(** The run stops with a fatal error, having done no file operation and no
    network operation. *)
Definition abortsBeforeFileAndNetwork (config : Config) (w : World) (s : State) : Prop :=
  (main config w s).1 = Fatal /\
  exists evs,
    events (main config w s).2 = events s ++ evs /\
    forallb (fun e => negb (isFileOp e) && negb (isPost e)) evs = true.

(** A working directory with a [.env] file that does not set the
    credential, and an environment that does not have it either. *)
Definition dotenvWorld : World :=
  mkWorld (time.mkTime 2024 1 31 23 5 9)
    (fun _ => Reply 200 "reply")
    (fun _ => inr {["EDITOR" := "emacs"]})
    (fun _ => inr {| Text := "hello world" |})
    (fun _ => inr {| Choices := [] |})
    (fun _ => None) (fun _ => None).

Definition dotenvState : State :=
  mkState ∅ (<[".env" := "EDITOR=emacs"]> {["talk.mp3" := "RIFF"]}) ∅ [].

(** ** Vocabulary of the further properties *)

(** The transcription endpoint gives nothing to decode: the request fails,
    the status is an error, or the body does not decode. *)
Definition transcriptionFails (w : World) (req : Request) : Prop :=
  match Post w req with
  | TransportError _ => True
  | Reply code body =>
      IsError code = true \/ exists err, unmarshalTranscription w body = inl err
  end.

(** The requests a run posted, in order. *)
Fixpoint posts (evs : list Event) : list Request :=
  match evs with
  | [] => []
  | EvPost req :: rest => req :: posts rest
  | _ :: rest => posts rest
  end.

(** The sample world one second later. *)
Definition laterWorld : World :=
  mkWorld (time.mkTime 2024 1 31 23 5 10)
    (fun _ => Reply 200 "reply") (fun _ => inr ∅)
    (fun _ => inr {| Text := "hello world" |})
    (fun _ => inr {| Choices := [] |})
    (fun _ => None) (fun _ => None).

(** Two choices come back; the second is not used. *)
Definition twoChoicesWorld : World :=
  mkWorld (time.mkTime 2024 1 31 23 5 9)
    (fun _ => Reply 200 "reply") (fun _ => inr ∅)
    (fun _ => inr {| Text := "hello world" |})
    (fun _ => inr {| Choices := [ {| Message := {| Content := "#+title: First" |} |};
                                  {| Message := {| Content := "#+title: Second" |} |} ] |})
    (fun _ => None) (fun _ => None).

(** The transcription endpoint answers [503]. *)
Definition unavailableWorld : World :=
  mkWorld (time.mkTime 2024 1 31 23 5 9)
    (fun _ => Reply 503 "busy") (fun _ => inr ∅)
    (fun _ => inr {| Text := "hello world" |})
    (fun _ => inr {| Choices := [] |})
    (fun _ => None) (fun _ => None).

(** The bearer credential of a request. *)
Definition bearer (req : Request) : option string :=
  match Headers req with
  | ("Authorization", value) :: _ => Some value
  | _ => None
  end.

(** A run from an existing transcription with the directive set. *)
Definition notesConfig : Config :=
  mkConfig "" "meeting.txt" "" "create_emacs_org_notes" "".

(** A run from an audio file with the directive set. *)
Definition pipelineConfig : Config :=
  mkConfig "talk.mp3" "" "" "create_emacs_org_notes" "".

(** * Properties *)

(** ** Byte strings *)

Section BytesFacts.

Lemma str_app_nil_r (s : string) : s +:+ "" = s.
Proof. induction s as [|c s IH]; simpl; [reflexivity | now rewrite IH]. Qed.

Lemma str_app_assoc (a b c : string) : (a +:+ b) +:+ c = a +:+ (b +:+ c).
Proof. induction a as [|x a IH]; simpl; [reflexivity | now rewrite IH]. Qed.

Lemma str_length_app (a b : string) :
  String.length (a +:+ b) = String.length a + String.length b.
Proof. induction a as [|x a IH]; simpl; [reflexivity | now rewrite IH]. Qed.

Lemma str_take_app (a b : string) : bytes.take (String.length a) (a +:+ b) = a.
Proof. induction a as [|x a IH]; simpl; [now destruct b | now rewrite IH]. Qed.

Lemma str_drop_app (a b : string) : bytes.drop (String.length a) (a +:+ b) = b.
Proof. induction a as [|x a IH]; simpl; [now destruct b | exact IH]. Qed.

Lemma str_take_all (s : string) : bytes.take (String.length s) s = s.
Proof. induction s as [|c s IH]; simpl; [reflexivity | now rewrite IH]. Qed.

Lemma str_take_drop (n : nat) (s : string) : bytes.take n s +:+ bytes.drop n s = s.
Proof.
  revert s; induction n as [|n IH]; intros [|c s]; simpl; try reflexivity.
  now rewrite IH.
Qed.

Lemma str_length_drop (n : nat) (s : string) :
  String.length (bytes.drop n s) = String.length s - n.
Proof.
  revert s; induction n as [|n IH]; intros [|c s]; simpl; try reflexivity.
  apply IH.
Qed.

Lemma str_get_app_at (a : string) (c : ascii) (b : string) :
  String.get (String.length a) (a +:+ String c b) = Some c.
Proof. induction a as [|x a IH]; simpl; [reflexivity | exact IH]. Qed.

Lemma str_get_drop (j : nat) (s : string) (c : ascii) :
  String.get j s = Some c -> bytes.drop j s = String c (bytes.drop (S j) s).
Proof.
  revert s; induction j as [|j IH]; intros [|x s]; simpl; try discriminate.
  - intros [= ->]. now destruct s.
  - intros H. rewrite (IH _ H). reflexivity.
Qed.

Lemma str_all_app (p : ascii -> bool) (a b : string) :
  bytes.all p (a +:+ b) = bytes.all p a && bytes.all p b.
Proof.
  induction a as [|x a IH]; simpl; [reflexivity|].
  rewrite IH. now rewrite andb_assoc.
Qed.

Lemma str_all_get (p : ascii -> bool) (s : string) (j : nat) (c : ascii) :
  bytes.all p s = true -> String.get j s = Some c -> p c = true.
Proof.
  revert j; induction s as [|x s IH]; intros j; simpl; [discriminate|].
  intros [Hx Hs]%andb_prop. destruct j as [|j].
  - now intros [= <-].
  - now apply IH.
Qed.

Lemma str_all_drop (p : ascii -> bool) (n : nat) (s : string) :
  bytes.all p s = true -> bytes.all p (bytes.drop n s) = true.
Proof.
  revert s; induction n as [|n IH]; intros [|c s]; simpl; try easy.
  intros [_ Hs]%andb_prop. now apply IH.
Qed.

Lemma str_all_impl (p q : ascii -> bool) (s : string) :
  (forall c, p c = true -> q c = true) ->
  bytes.all p s = true -> bytes.all q s = true.
Proof.
  intros Hpq. induction s as [|c s IH]; simpl; [easy|].
  intros [Hc Hs]%andb_prop. rewrite (Hpq _ Hc). now apply IH.
Qed.

Lemma str_all_repeat (p : ascii -> bool) (c : ascii) (n : nat) :
  p c = true -> bytes.all p (bytes.repeat c n) = true.
Proof. intros Hc. induction n as [|n IH]; simpl; [easy | now rewrite Hc]. Qed.

Lemma str_length_repeat (c : ascii) (n : nat) : String.length (bytes.repeat c n) = n.
Proof. induction n as [|n IH]; simpl; [easy | now rewrite IH]. Qed.

Lemma str_app_inv_head (a b c : string) : a +:+ b = a +:+ c -> b = c.
Proof. induction a as [|x a IH]; simpl; [easy | intros [= H]; auto]. Qed.

Lemma str_app_inv_tail (a b c : string) : a +:+ c = b +:+ c -> a = b.
Proof.
  revert b; induction a as [|x a IH]; intros [|y b] H.
  - reflexivity.
  - exfalso. apply (f_equal String.length) in H.
    rewrite !str_length_app in H. simpl in H. lia.
  - exfalso. apply (f_equal String.length) in H.
    rewrite !str_length_app in H. simpl in H. lia.
  - simpl in H. injection H as -> H. f_equal. now apply IH.
Qed.

End BytesFacts.

Lemma plain_sepFree (s : string) : plain s -> sepFree s.
Proof.
  apply str_all_impl. intros c. unfold notSepDot, notSep. now intros [H _]%andb_prop.
Qed.

Lemma plain_dotFree (s : string) : plain s -> dotFree s.
Proof.
  apply str_all_impl. intros c. unfold notSepDot, notDot. now intros [_ H]%andb_prop.
Qed.

(** ** The library functions on the cases of Go's own tests *)

Example Clean_examples :
  map filepath.Clean
    ["abc"; "abc/def"; "a/b/c"; "."; ".."; "../.."; "../../abc"; "/abc"; "/"; "";
     "abc/"; "abc/def/"; "a/b/c/"; "./"; "../"; "../../"; "/abc/";
     "abc//def//ghi"; "abc//"; "abc/./def"; "/./abc/def"; "abc/.";
     "abc/def/ghi/../jkl"; "abc/def/../ghi/../jkl"; "abc/def/.."; "abc/def/../..";
     "/abc/def/../.."; "abc/def/../../.."; "/abc/def/../../..";
     "abc/def/../../../ghi/jkl/../../../mno"; "/../abc"; "a/../b:/../../c";
     "abc/./../def"; "abc//./../def"; "abc/../../././../def"] =
    ["abc"; "abc/def"; "a/b/c"; "."; ".."; "../.."; "../../abc"; "/abc"; "/"; ".";
     "abc"; "abc/def"; "a/b/c"; "."; ".."; "../.."; "/abc";
     "abc/def/ghi"; "abc"; "abc/def"; "/abc/def"; "abc";
     "abc/def/jkl"; "abc/jkl"; "abc"; ".";
     "/"; ".."; "/";
     "../../mno"; "/abc"; "../c";
     "def"; "def"; "../../def"].
Proof. reflexivity. Qed.

Example Ext_examples :
  map filepath.Ext ["path.go"; "path.pb.go"; "a.dir/b"; "a.dir/b.go"; "a.dir/"] =
    [".go"; ".go"; ""; ".go"; ""].
Proof. reflexivity. Qed.

Example Base_examples :
  map filepath.Base
    [""; "."; "/."; "/"; "////"; "x/"; "abc"; "abc/def"; "a/b/.x"; "a/b/c."; "a/b/c.x"] =
    ["."; "."; "."; "/"; "/"; "x"; "abc"; "def"; ".x"; "c."; "c.x"].
Proof. reflexivity. Qed.

Example Dir_examples :
  map filepath.Dir
    [""; "."; "/."; "/"; "/foo"; "x/"; "abc"; "abc/def"; "a/b/.x"; "a/b/c."; "a/b/c.x"] =
    ["."; "."; "/"; "/"; "/"; "x"; "."; "abc"; "a/b"; "a/b"; "a/b"].
Proof. reflexivity. Qed.

Example Join_examples :
  map filepath.Join
    [[]; [""]; ["/"]; ["a"]; ["a"; "b"]; ["a"; ""]; [""; "b"]; ["/"; "a"];
     ["/"; "a/b"]; ["/"; ""]; ["/a"; "b"]; ["a"; "/b"]; ["a/"; "b"]; ["a/"; ""]; [""; ""]] =
    [""; ""; "/"; "a"; "a/b"; "a"; "b"; "/a";
     "/a/b"; "/"; "/a/b"; "a/b"; "a/b"; "a"; ""].
Proof. reflexivity. Qed.

Example TrimSuffix_examples :
  map (fun p => strings.TrimSuffix p.1 p.2)
    [("b.txt", ".txt"); ("b.txt", ".org"); ("b", ""); ("", ".txt"); (".txt", ".txt")] =
    ["b"; "b.txt"; "b"; ""; ""].
Proof. reflexivity. Qed.

Example Format_example :
  time.Format (time.mkTime 2006 1 2 15 4 5) time.layout_20060102_150405 =
  "20060102_150405".
Proof. reflexivity. Qed.

(** ** [filepath.Ext] *)

Section ExtFacts.

(** The scan passes over bytes that are neither a dot nor a separator. *)
Lemma extLoop_skip (suf pre : string) :
  plain suf ->
  filepath.extLoop (pre +:+ suf) (String.length pre + String.length suf) =
  filepath.extLoop (pre +:+ suf) (String.length pre).
Proof.
  revert pre; induction suf as [|c suf IH]; intros pre Hp.
  - simpl. now rewrite Nat.add_0_r.
  - unfold plain in Hp. simpl in Hp. apply andb_prop in Hp as [Hc Hs].
    specialize (IH (pre +:+ String c "") Hs).
    rewrite str_app_assoc in IH. simpl in IH.
    rewrite str_length_app in IH. simpl in IH.
    replace (String.length pre + String.length (String c suf))
      with (String.length pre + 1 + String.length suf) by (simpl; lia).
    rewrite IH. rewrite Nat.add_1_r. simpl.
    rewrite str_get_app_at.
    unfold notSepDot in Hc. apply andb_prop in Hc as [H1 H2].
    apply negb_true_iff in H1, H2. now rewrite H1, H2.
Qed.

(** The extension of [pre.e] is [.e] when [e] has no dot and no
    separator. *)
Lemma Ext_dot (pre e : string) :
  plain e -> filepath.Ext (pre +:+ "." +:+ e) = "." +:+ e.
Proof.
  intros He. unfold filepath.Ext.
  replace (pre +:+ "." +:+ e) with ((pre +:+ ".") +:+ e) by now rewrite str_app_assoc.
  rewrite str_length_app, extLoop_skip by assumption.
  rewrite str_length_app. simpl. rewrite Nat.add_1_r. simpl.
  rewrite str_app_assoc. simpl. rewrite str_get_app_at. simpl.
  apply str_drop_app.
Qed.

(** No dot, no extension. *)
Lemma extLoop_dotFree (path : string) (i : nat) :
  dotFree path -> filepath.extLoop path i = "".
Proof.
  intros Hp. induction i as [|j IH]; simpl; [reflexivity|].
  destruct (String.get j path) as [c|] eqn:Hc; [|reflexivity].
  destruct (filepath.IsPathSeparator c); [reflexivity|].
  pose proof (str_all_get _ _ _ _ Hp Hc) as Hd. unfold notDot in Hd.
  apply negb_true_iff in Hd. now rewrite Hd.
Qed.

Lemma Ext_dotFree (path : string) : dotFree path -> filepath.Ext path = "".
Proof. apply extLoop_dotFree. Qed.

(** What the scan returns is empty or a tail of the path that starts with
    a dot and has no other dot and no separator. *)
Lemma extLoop_shape (path : string) (i : nat) :
  plain (bytes.drop i path) ->
  filepath.extLoop path i = "" \/
  exists j e, filepath.extLoop path i = bytes.drop j path /\
              bytes.drop j path = "." +:+ e /\ plain e.
Proof.
  induction i as [|j IH]; intros Hp; simpl; [now left|].
  destruct (String.get j path) as [c|] eqn:Hc; [|now left].
  destruct (filepath.IsPathSeparator c) eqn:Hsep; [now left|].
  destruct (Ascii.eqb c ".") eqn:Hdot.
  - right. exists j, (bytes.drop (S j) path). split; [reflexivity|].
    split; [|assumption].
    apply Ascii.eqb_eq in Hdot. subst c. now apply str_get_drop.
  - apply IH. rewrite (str_get_drop _ _ _ Hc). unfold plain in *.
    cbn [bytes.all]. rewrite Hp. unfold notSepDot. now rewrite Hsep, Hdot.
Qed.

Lemma str_drop_length (s : string) : bytes.drop (String.length s) s = "".
Proof. induction s as [|c s IH]; simpl; [reflexivity | exact IH]. Qed.

Lemma Ext_shape (path : string) :
  filepath.Ext path = "" \/
  exists j e, filepath.Ext path = bytes.drop j path /\
              bytes.drop j path = "." +:+ e /\ plain e.
Proof. apply extLoop_shape. now rewrite str_drop_length. Qed.

(** The extension is a suffix of the path: the path is a stem followed by
    its extension. *)
Lemma Ext_suffix (path : string) :
  exists stem, path = stem +:+ filepath.Ext path.
Proof.
  destruct (Ext_shape path) as [H | (j & e & H & _)]; rewrite H.
  - exists path. now rewrite str_app_nil_r.
  - exists (bytes.take j path). now rewrite str_take_drop.
Qed.

Lemma Ext_length (path : string) :
  String.length (filepath.Ext path) <= String.length path.
Proof.
  destruct (Ext_suffix path) as [stem H].
  rewrite H at 2. rewrite str_length_app. lia.
Qed.

End ExtFacts.

(** ** Path name elements *)

Section ElementFacts.

Lemma elements_nonempty (s : string) : filepath.elements s <> [].
Proof.
  destruct s as [|c s]; simpl; [easy|].
  destruct (filepath.IsPathSeparator c); [easy|].
  now destruct (filepath.elements s).
Qed.

Lemma elements_sepFree (x : string) : sepFree x -> filepath.elements x = [x].
Proof.
  unfold sepFree. induction x as [|c x IH]; simpl; [easy|].
  intros [Hc Hx]%andb_prop. unfold notSep in Hc. apply negb_true_iff in Hc.
  now rewrite Hc, (IH Hx).
Qed.

(** Cutting at a separator cuts the list of elements. *)
Lemma elements_app (a b : string) :
  filepath.elements (a +:+ "/" +:+ b) = filepath.elements a ++ filepath.elements b.
Proof.
  induction a as [|c a IH]; simpl in *; [reflexivity|].
  destruct (filepath.IsPathSeparator c); rewrite IH; [reflexivity|].
  pose proof (elements_nonempty a) as Hne.
  now destruct (filepath.elements a).
Qed.

Lemma elements_all_sepFree (s : string) : Forall sepFree (filepath.elements s).
Proof.
  induction s as [|c s IH]; simpl; [now repeat constructor|].
  destruct (filepath.IsPathSeparator c) eqn:Hc; [now constructor|].
  destruct (filepath.elements s) as [|e es]; [now repeat constructor; unfold sepFree; simpl; unfold notSep; rewrite Hc|].
  inversion IH; subst. constructor; [|assumption].
  unfold sepFree in *. simpl. unfold notSep at 1. now rewrite Hc.
Qed.

Lemma concat_cons (x y : string) (l : list string) :
  String.concat "/" (x :: y :: l) = x +:+ "/" +:+ String.concat "/" (y :: l).
Proof. reflexivity. Qed.

(** Joining elements with separators and cutting again gives them back. *)
Lemma elements_concat (l : list string) :
  l <> [] -> Forall sepFree l -> filepath.elements (String.concat "/" l) = l.
Proof.
  induction l as [|x [|y l] IH]; intros Hne Hall; [easy| |].
  - simpl. apply elements_sepFree. now inversion Hall.
  - rewrite concat_cons, elements_app.
    inversion Hall; subst. rewrite elements_sepFree by assumption.
    now rewrite IH.
Qed.

Lemma concat_snoc (l : list string) (x : string) :
  l <> [] ->
  String.concat "/" (l ++ [x]) = String.concat "/" l +:+ "/" +:+ x.
Proof.
  induction l as [|y [|z l] IH]; intros Hne; [easy| |].
  - reflexivity.
  - change (String.concat "/" ((y :: z :: l) ++ [x]))
      with (y +:+ "/" +:+ String.concat "/" ((z :: l) ++ [x])).
    rewrite IH by easy. rewrite concat_cons.
    now rewrite !str_app_assoc.
Qed.

Lemma concat_head_nonempty (x : string) (l : list string) :
  x <> "" -> String.concat "/" (x :: l) <> "".
Proof. destruct x; [easy|]. now destruct l. Qed.

Lemma concat_head_unrooted (x : string) (l : list string) :
  x <> "" -> sepFree x -> filepath.isRooted (String.concat "/" (x :: l)) = false.
Proof.
  intros Hx Hs. destruct x as [|c x]; [easy|].
  unfold sepFree in Hs. simpl in Hs. apply andb_prop in Hs as [Hc _].
  unfold notSep in Hc. apply negb_true_iff in Hc.
  now destruct l.
Qed.

End ElementFacts.

(** ** [filepath.Clean] *)

Section CleanFacts.

Lemma cleanStep_real (rooted : bool) (out : list string) (e : string) :
  real e -> filepath.cleanStep rooted out e = e :: out.
Proof.
  intros (H1 & H2 & H3 & _). unfold filepath.cleanStep.
  apply String.eqb_neq in H1, H2, H3. now rewrite H1, H2, H3.
Qed.

Lemma ups_written (out : list string) :
  Forall (eq "..") out -> written false out.
Proof.
  destruct 1 as [|x out Hx Hout]; [constructor|].
  subst x. now constructor.
Qed.

Lemma real_not_up (e : string) : real e -> e <> "..".
Proof. now intros (_ & _ & H & _). Qed.

(** One step of the scan keeps the shape. *)
Lemma cleanStep_written (rooted : bool) (out : list string) (e : string) :
  sepFree e -> written rooted out -> written rooted (filepath.cleanStep rooted out e).
Proof.
  intros He Hw. unfold filepath.cleanStep.
  destruct (String.eqb_spec e "") as [->|Hne]; [assumption|].
  destruct (String.eqb_spec e ".") as [->|Hnd]; [assumption|]. simpl.
  destruct (String.eqb_spec e "..") as [->|Hnu].
  - destruct Hw as [|out Hr Hups|top out Hreal Hw].
    + destruct rooted; [constructor | now constructor].
    + simpl. subst rooted. constructor; [reflexivity|]. now constructor.
    + destruct (String.eqb_spec top "..") as [->|_]; [|assumption].
      now apply real_not_up in Hreal.
  - constructor; [|assumption]. now repeat split.
Qed.

Lemma fold_written (rooted : bool) (l out : list string) :
  Forall sepFree l -> written rooted out ->
  written rooted (fold_left (filepath.cleanStep rooted) l out).
Proof.
  revert out; induction l as [|e l IH]; intros out Hall Hw; [assumption|].
  inversion Hall; subst. simpl. apply IH; [assumption|].
  now apply cleanStep_written.
Qed.

Lemma scan_written (path : string) :
  written (filepath.isRooted path) (filepath.scan path).
Proof.
  apply fold_written; [apply elements_all_sepFree | constructor].
Qed.

Lemma written_all_sepFree (rooted : bool) (out : list string) :
  written rooted out -> Forall sepFree out.
Proof.
  induction 1 as [|out Hr Hups|e out He Hw IH].
  - constructor.
  - constructor; [reflexivity|].
    eapply Forall_impl; [exact Hups|]. now intros x <-.
  - constructor; [|assumption]. now destruct He as (_ & _ & _ & H).
Qed.

Lemma written_all_nonempty (rooted : bool) (out : list string) :
  written rooted out -> Forall (fun e => e <> "") out.
Proof.
  induction 1 as [|out Hr Hups|e out He Hw IH].
  - constructor.
  - constructor; [easy|].
    eapply Forall_impl; [exact Hups|]. now intros x <-.
  - constructor; [|assumption]. now destruct He.
Qed.

(** Scanning what was written writes it again. *)
Lemma replay (rooted : bool) (out : list string) :
  written rooted out ->
  fold_left (filepath.cleanStep rooted) (rev out) [] = out.
Proof.
  induction 1 as [|out Hr Hups|e out He Hw IH]; [reflexivity| |].
  - simpl. rewrite fold_left_app. simpl.
    assert (Hrec : fold_left (filepath.cleanStep rooted) (rev out) [] = out).
    { clear -Hr Hups. subst rooted.
      induction Hups as [|x out Hx Hups IH]; [reflexivity|].
      subst x. simpl. rewrite fold_left_app, IH. simpl.
      unfold filepath.cleanStep. simpl.
      destruct Hups as [|y out Hy _]; [reflexivity | now subst y]. }
    rewrite Hrec. subst rooted. unfold filepath.cleanStep. simpl.
    destruct Hups as [|x out Hx Hups]; [reflexivity|]. now subst x.
  - simpl. rewrite fold_left_app, IH. simpl. now apply cleanStep_real.
Qed.

Lemma body_nonempty (rooted : bool) (out : list string) :
  written rooted out -> out <> [] -> String.concat "/" (rev out) <> "".
Proof.
  intros Hw Hne.
  pose proof (written_all_nonempty _ _ Hw) as Hall.
  apply Forall_rev in Hall.
  destruct (rev out) as [|x l] eqn:Hrev.
  - apply (f_equal (@rev string)) in Hrev. now rewrite rev_involutive in Hrev.
  - apply concat_head_nonempty. now inversion Hall.
Qed.

Lemma render_rooted (rooted : bool) (out : list string) :
  written rooted out -> filepath.isRooted (filepath.render rooted out) = rooted.
Proof.
  intros Hw. unfold filepath.render. destruct rooted; [reflexivity|].
  destruct (String.eqb_spec (String.concat "/" (rev out)) "") as [|Hne]; [reflexivity|].
  pose proof (written_all_nonempty _ _ Hw) as Hall.
  pose proof (written_all_sepFree _ _ Hw) as Hsep.
  apply Forall_rev in Hall, Hsep.
  destruct (rev out) as [|x l]; [easy|].
  apply concat_head_unrooted; [now inversion Hall | now inversion Hsep].
Qed.

Lemma render_nonempty (rooted : bool) (out : list string) :
  filepath.render rooted out <> "".
Proof.
  unfold filepath.render. destruct rooted; [easy|].
  now destruct (String.eqb_spec (String.concat "/" (rev out)) "").
Qed.

(** The elements of a cleaned path are the ones that were written. *)
Lemma scan_render (rooted : bool) (out : list string) :
  written rooted out ->
  fold_left (filepath.cleanStep rooted) (filepath.elements (filepath.render rooted out)) []
  = out.
Proof.
  intros Hw. unfold filepath.render.
  pose proof (written_all_sepFree _ _ Hw) as Hsep. apply Forall_rev in Hsep.
  destruct out as [|e out].
  - destruct rooted; reflexivity.
  - assert (Hne : rev (e :: out) <> []).
    { intros H. apply (f_equal (@rev string)) in H.
      now rewrite rev_involutive in H. }
    assert (Hb := body_nonempty _ _ Hw ltac:(easy)).
    destruct rooted.
    + change ("/" +:+ String.concat "/" (rev (e :: out)))
        with ("" +:+ "/" +:+ String.concat "/" (rev (e :: out))).
      rewrite elements_app, elements_concat by assumption.
      replace (fold_left (filepath.cleanStep true)
                 (filepath.elements "" ++ rev (e :: out)) [])
        with (fold_left (filepath.cleanStep true) (rev (e :: out)) [])
        by reflexivity.
      now apply replay.
    + apply String.eqb_neq in Hb. rewrite Hb.
      rewrite elements_concat by assumption. now apply replay.
Qed.

Lemma scan_of_render (rooted : bool) (out : list string) :
  written rooted out -> filepath.scan (filepath.render rooted out) = out.
Proof.
  intros Hw. unfold filepath.scan.
  rewrite (render_rooted _ _ Hw). now apply scan_render.
Qed.

End CleanFacts.

(** ** The byte loop of [filepath.Clean] *)

Section CleanLoopFacts.

Lemma length_dropElement (rest : string) :
  String.length (filepath.dropElement rest) <= String.length rest.
Proof.
  induction rest as [|c r IH]; simpl; [lia|].
  destruct (filepath.IsPathSeparator c); simpl; lia.
Qed.

Lemma elements_take_drop (rest : string) :
  filepath.elements rest =
  filepath.takeElement rest :: tl (filepath.elements (filepath.dropElement rest)).
Proof.
  induction rest as [|c r IH]; simpl; [reflexivity|].
  destruct (filepath.IsPathSeparator c) eqn:Hc; simpl.
  - now rewrite Hc.
  - now rewrite IH.
Qed.

Lemma elements_dropElement (rest : string) :
  filepath.elements (filepath.dropElement rest) =
  "" :: tl (filepath.elements (filepath.dropElement rest)).
Proof.
  induction rest as [|c r IH]; simpl; [reflexivity|].
  destruct (filepath.IsPathSeparator c) eqn:Hc; [|exact IH].
  simpl. now rewrite Hc.
Qed.

(** Scanning a path is scanning its first element and then the rest. *)
Lemma fold_first_element (rooted : bool) (rest : string) (out : list string) :
  fold_left (filepath.cleanStep rooted) (filepath.elements rest) out =
  fold_left (filepath.cleanStep rooted) (filepath.elements (filepath.dropElement rest))
    (filepath.cleanStep rooted out (filepath.takeElement rest)).
Proof.
  rewrite elements_take_drop, (elements_dropElement rest). reflexivity.
Qed.

Lemma takeElement_sepFree (rest : string) : sepFree (filepath.takeElement rest).
Proof.
  unfold sepFree. induction rest as [|c r IH]; simpl; [reflexivity|].
  destruct (filepath.IsPathSeparator c) eqn:Hc; simpl; [reflexivity|].
  unfold notSep at 1. now rewrite Hc.
Qed.

Lemma upsOf_real (e : string) (out : list string) :
  real e -> upsOf (e :: out) = upsOf out.
Proof.
  intros (_ & _ & H & _). simpl. apply String.eqb_neq in H. now rewrite H.
Qed.

Lemma upsOf_ups (out : list string) : Forall (eq "..") out -> upsOf out = out.
Proof. destruct 1 as [|x out Hx _]; [reflexivity|]. now subst x. Qed.

Lemma buffer_push (rooted : bool) (e : string) (out : list string) :
  buffer rooted (e :: out) =
  (if match out with [] => true | _ => false end
   then buffer rooted out else buffer rooted out +:+ "/") +:+ e.
Proof.
  unfold buffer. destruct out as [|x out].
  - simpl. now rewrite str_app_nil_r.
  - change (rev (e :: x :: out)) with (rev (x :: out) ++ [e]).
    rewrite concat_snoc.
    + now rewrite !str_app_assoc.
    + intros H. apply (f_equal (@rev string)) in H.
      now rewrite rev_involutive in H.
Qed.

Lemma buffer_length_empty (rooted : bool) (out : list string) :
  written rooted out ->
  ((rooted && negb (String.length (buffer rooted out) =? 1)) ||
   (negb rooted && negb (String.length (buffer rooted out) =? 0))) =
  negb (match out with [] => true | _ => false end).
Proof.
  intros Hw. destruct out as [|e out].
  - now destruct rooted.
  - pose proof (body_nonempty _ _ Hw ltac:(easy)) as Hb.
    unfold buffer. destruct (String.concat "/" (rev (e :: out))) as [|c b]; [easy|].
    now destruct rooted.
Qed.

Lemma mark_le (rooted : bool) (out : list string) :
  written rooted out -> mark rooted out <= String.length (buffer rooted out).
Proof.
  induction 1 as [|out Hr Hups|e out He Hw IH]; unfold mark in *.
  - reflexivity.
  - rewrite upsOf_ups; [reflexivity | now constructor].
  - rewrite upsOf_real by assumption. rewrite buffer_push.
    destruct out; rewrite !str_length_app; lia.
Qed.

(** The loop that backs over the last element stops at its separator, or
    at [dotdot]. *)
Lemma backLoop_skip (suf p : string) (d : nat) :
  sepFree suf -> p <> "" -> d <= String.length p - 1 ->
  filepath.backLoop (p +:+ suf) d (String.length p - 1 + String.length suf) =
  filepath.backLoop (p +:+ suf) d (String.length p - 1).
Proof.
  revert p; induction suf as [|x suf IH]; intros p Hs Hp Hd.
  - simpl. now rewrite Nat.add_0_r.
  - unfold sepFree in Hs. simpl in Hs. apply andb_prop in Hs as [Hx Hs].
    assert (Hlen : String.length p <> 0) by now destruct p.
    specialize (IH (p +:+ String x "") Hs).
    rewrite str_app_assoc, str_length_app in IH. simpl in IH.
    replace (String.length p - 1 + String.length (String x suf))
      with (String.length p + 1 - 1 + String.length suf) by (simpl; lia).
    rewrite IH; [| now destruct p | lia].
    replace (String.length p + 1 - 1) with (S (String.length p - 1)) by lia.
    simpl. replace (S (String.length p - 1)) with (String.length p) by lia.
    rewrite str_get_app_at.
    unfold notSep in Hx. rewrite Hx.
    destruct (Nat.ltb_spec d (String.length p)); [reflexivity | lia].
Qed.

Lemma backtrack_last (pre e' : string) (c : ascii) (d : nat) :
  sepFree e' -> d <= String.length pre ->
  filepath.IsPathSeparator c = true \/ d = String.length pre ->
  filepath.backtrack (pre +:+ String c e') d = pre.
Proof.
  intros He Hd Hstop. unfold filepath.backtrack.
  assert (Hback :
    filepath.backLoop (pre +:+ String c e') d
      (String.length (pre +:+ String c e') - 1) = String.length pre).
  { replace (pre +:+ String c e') with ((pre +:+ String c "") +:+ e')
      by now rewrite str_app_assoc.
    replace (String.length ((pre +:+ String c "") +:+ e') - 1)
      with (String.length (pre +:+ String c "") - 1 + String.length e')
      by (rewrite !str_length_app; simpl; lia).
    rewrite backLoop_skip;
      [| assumption | now destruct pre | rewrite str_length_app; simpl; lia].
    rewrite str_length_app. simpl.
    replace (String.length pre + 1 - 1) with (String.length pre) by lia.
    rewrite str_app_assoc. simpl.
    destruct (String.length pre) as [|k] eqn:Hk; [reflexivity|].
    simpl. rewrite <- Hk, str_get_app_at.
    destruct Hstop as [Hc | Hq].
    - now rewrite Hc, andb_false_r.
    - destruct (Nat.ltb_spec d (String.length pre)); [lia | reflexivity]. }
  rewrite Hback. apply str_take_app.
Qed.

End CleanLoopFacts.

Section CleanLoopScan.

Lemma endsElement_take (r : string) :
  filepath.endsElement r = true -> filepath.takeElement r = "" /\ filepath.dropElement r = r.
Proof.
  destruct r as [|d r]; simpl; [easy|]. now intros ->.
Qed.

Lemma take_empty_ends (r : string) :
  filepath.takeElement r = "" -> filepath.endsElement r = true.
Proof.
  destruct r as [|d r]; simpl; [easy|].
  now destruct (filepath.IsPathSeparator d).
Qed.

Lemma dot_not_separator : filepath.IsPathSeparator "." = false.
Proof. reflexivity. Qed.

(** The three tests of the loop on an element that starts at [c]: the
    element is [.], it is [..], or it is kept. *)
Lemma element_dot (c : ascii) (r1 : string) :
(Ascii.eqb c "." && filepath.endsElement r1) = true ->
  filepath.takeElement (String c r1) = "." /\ filepath.dropElement (String c r1) = r1.
Proof.
  intros [Hc He]%andb_prop. apply Ascii.eqb_eq in Hc. subst c.
  destruct (endsElement_take r1 He) as [Ht Hd]. simpl. now rewrite Ht, Hd.
Qed.

Lemma element_dotdot (c : ascii) (r1 : string) :
  (Ascii.eqb c "." &&
   match r1 with
   | String d r2 => Ascii.eqb d "." && filepath.endsElement r2
   | EmptyString => false
   end) = true ->
  filepath.takeElement (String c r1) = ".." /\
  filepath.dropElement (String c r1) = bytes.drop 1 r1.
Proof.
  intros [Hc H]%andb_prop. apply Ascii.eqb_eq in Hc. subst c.
  destruct r1 as [|d r2]; [discriminate|].
  apply andb_prop in H as [Hd He]. apply Ascii.eqb_eq in Hd. subst d.
  destruct (endsElement_take r2 He) as [Ht Hdr]. simpl. now rewrite Ht, Hdr.
Qed.

Lemma element_real (c : ascii) (r1 : string) :
  filepath.IsPathSeparator c = false ->
  (Ascii.eqb c "." && filepath.endsElement r1) = false ->
  (Ascii.eqb c "." &&
   match r1 with
   | String d r2 => Ascii.eqb d "." && filepath.endsElement r2
   | EmptyString => false
   end) = false ->
  real (filepath.takeElement (String c r1)).
Proof.
  intros Hc H1 H2.
  pose proof (takeElement_sepFree (String c r1)) as Hs.
  simpl in *. rewrite Hc in *.
  repeat split; try assumption; try easy.
  - intros [= -> Ht]. apply take_empty_ends in Ht. now rewrite Ht in H1.
  - intros [= -> Ht]. destruct r1 as [|d r2]; [discriminate|].
    simpl in Ht. destruct (filepath.IsPathSeparator d); [discriminate|].
    injection Ht as -> Ht. apply take_empty_ends in Ht. now rewrite Ht in H2.
Qed.

Lemma buffer_longer (rooted : bool) (e : string) (out : list string) :
  e <> "" ->
  String.length (buffer rooted out) < String.length (buffer rooted (e :: out)).
Proof.
  intros He. rewrite buffer_push.
  assert (0 < String.length e) by (destruct e; [easy | simpl; lia]).
  destruct out; rewrite !str_length_app; lia.
Qed.

(** Backing over a kept element gives the buffer of what was below it. *)
Lemma backtrack_buffer (rooted : bool) (e : string) (out : list string) :
  real e -> written rooted out ->
  filepath.backtrack (buffer rooted (e :: out)) (mark rooted out) = buffer rooted out.
Proof.
  intros He Hw. rewrite buffer_push.
  destruct He as (Hne & _ & _ & Hs).
  destruct out as [|x out].
  - destruct e as [|c e']; [easy|].
    unfold sepFree in Hs. simpl in Hs. apply andb_prop in Hs as [_ Hs].
    apply backtrack_last; [assumption | reflexivity | now right].
  - rewrite str_app_assoc.
    apply backtrack_last; [assumption | now apply mark_le | now left].
Qed.

(** The byte loop, started on the buffer of what was written, ends with the
    buffer of the scan by elements. *)
Lemma cleanLoop_scan (rooted : bool) (fuel : nat) :
  forall (rest : string) (out : list string),
    String.length rest <= fuel -> written rooted out ->
    filepath.cleanLoop fuel rooted rest (buffer rooted out) (mark rooted out) =
    buffer rooted (fold_left (filepath.cleanStep rooted) (filepath.elements rest) out).
Proof.
  induction fuel as [|fuel IH]; intros rest out Hlen Hw.
  { destruct rest; [reflexivity | simpl in Hlen; lia]. }
  destruct rest as [|c r1]; [reflexivity|].
  simpl in Hlen. cbn [filepath.cleanLoop].
  destruct (filepath.IsPathSeparator c) eqn:Hc.
  { simpl. rewrite Hc. simpl. apply IH; [lia | assumption]. }
  rewrite fold_first_element.
  destruct (Ascii.eqb c "." && filepath.endsElement r1) eqn:H1.
  { destruct (element_dot c r1 H1) as [-> ->]. simpl.
    apply IH; [lia | assumption]. }
  destruct (Ascii.eqb c "." &&
            match r1 with
            | String d r2 => Ascii.eqb d "." && filepath.endsElement r2
            | EmptyString => false
            end) eqn:H2.
  { destruct (element_dotdot c r1 H2) as [-> ->].
    assert (Hr2 : String.length (bytes.drop 1 r1) <= fuel).
    { destruct r1 as [|d r2]; simpl in *; lia. }
    cbv zeta.
    destruct Hw as [|out Hr Hups|e out He Hw].
    - destruct rooted; simpl.
      + apply (IH _ [] Hr2). constructor.
      + apply (IH _ [".."] Hr2). now constructor.
    - subst rooted.
      assert (Hm : mark false (".." :: out) = String.length (buffer false (".." :: out))).
      { unfold mark. rewrite upsOf_ups; [reflexivity | now constructor]. }
      rewrite Hm, Nat.ltb_irrefl. simpl negb. cbv iota.
      assert (Hpos : (0 <? String.length (buffer false (".." :: out))) = true).
      { apply Nat.ltb_lt. pose proof (buffer_longer false ".." out ltac:(easy)). lia. }
      rewrite Hpos.
      replace ((buffer false (".." :: out) +:+ "/") +:+ "..")
        with (buffer false (".." :: ".." :: out)) by now rewrite buffer_push.
      replace (String.length (buffer false (".." :: ".." :: out)))
        with (mark false (".." :: ".." :: out))
        by (unfold mark; rewrite upsOf_ups; [reflexivity | now repeat constructor]).
      unfold filepath.cleanStep. simpl.
      apply (IH _ (".." :: ".." :: out) Hr2). constructor; [reflexivity|].
      now constructor.
    - assert (Hm : mark rooted (e :: out) = mark rooted out)
        by (unfold mark; now rewrite upsOf_real).
      rewrite Hm.
      assert (Hlt : (mark rooted out <? String.length (buffer rooted (e :: out))) = true).
      { apply Nat.ltb_lt. pose proof (mark_le _ _ Hw).
        pose proof (buffer_longer rooted e out ltac:(now destruct He)). lia. }
      rewrite Hlt, backtrack_buffer by assumption.
      assert (Hstep : filepath.cleanStep rooted (e :: out) ".." = out).
      { unfold filepath.cleanStep. simpl.
        destruct He as (_ & _ & Hne & _). apply String.eqb_neq in Hne.
        now rewrite Hne. }
      rewrite Hstep. now apply IH. }
  pose proof (element_real c r1 Hc H1 H2) as Hreal.
  rewrite cleanStep_real by assumption.
  rewrite buffer_length_empty by assumption.
  assert (Hbuf :
    (if negb (match out with [] => true | _ => false end)
     then buffer rooted out +:+ "/" else buffer rooted out) +:+
    filepath.takeElement (String c r1) =
    buffer rooted (filepath.takeElement (String c r1) :: out)).
  { rewrite buffer_push. now destruct out. }
  rewrite Hbuf.
  replace (mark rooted out) with (mark rooted (filepath.takeElement (String c r1) :: out))
    by (unfold mark; now rewrite upsOf_real).
  apply IH; [|now constructor].
  pose proof (length_dropElement (String c r1)) as Hd. simpl in Hd.
  rewrite Hc in Hd. simpl. rewrite Hc.
  pose proof (length_dropElement r1). lia.
Qed.

(** [Clean], byte by byte, is [Clean], element by element. *)
Lemma Clean_elements (path : string) :
  filepath.Clean path =
  if String.eqb path "" then "."
  else filepath.render (filepath.isRooted path) (filepath.scan path).
Proof.
  unfold filepath.Clean.
  destruct (String.eqb path ""); [reflexivity|].
  unfold filepath.scan, filepath.render.
  destruct path as [|c p]; [reflexivity|].
  cbn [filepath.isRooted]. destruct (filepath.IsPathSeparator c) eqn:Hc.
  - cbn [bytes.drop].
    replace (bytes.drop 0 p) with p by now destruct p.
    assert (Hloop :
      filepath.cleanLoop (String.length (String c p)) true p "/" 1 =
      buffer true (fold_left (filepath.cleanStep true) (filepath.elements p) [])).
    { apply (cleanLoop_scan true _ p []); [simpl; lia | constructor]. }
    rewrite Hloop. simpl filepath.elements. rewrite Hc. reflexivity.
  - assert (Hloop :
      filepath.cleanLoop (String.length (String c p)) false (String c p) "" 0 =
      buffer false
        (fold_left (filepath.cleanStep false) (filepath.elements (String c p)) [])).
    { apply (cleanLoop_scan false _ (String c p) []); [simpl; lia | constructor]. }
    rewrite Hloop. unfold buffer.
    change ("" +:+ ?x) with x.
    now destruct (String.concat "/" _).
Qed.

End CleanLoopScan.

(** ** Cleaned paths *)

Section CleanPaths.

Lemma Clean_nonempty (path : string) : filepath.Clean path <> "".
Proof.
  rewrite ?Clean_elements. destruct (String.eqb path ""); [easy|].
  apply render_nonempty.
Qed.

Lemma isRooted_app (a b : string) :
  a <> "" -> filepath.isRooted (a +:+ b) = filepath.isRooted a.
Proof. now destruct a. Qed.

Lemma app_nonempty (a b : string) : a <> "" -> a +:+ b <> "".
Proof. now destruct a. Qed.

(** A kept element at the end of a path is written last. *)
Lemma Clean_snoc (a x : string) :
  a <> "" -> real x ->
  filepath.Clean (a +:+ "/" +:+ x) =
  filepath.render (filepath.isRooted a) (x :: filepath.scan a).
Proof.
  intros Ha Hx. rewrite ?Clean_elements.
  pose proof (app_nonempty a ("/" +:+ x) Ha) as Hne.
  apply String.eqb_neq in Hne. rewrite Hne.
  unfold filepath.scan. rewrite isRooted_app by assumption.
  rewrite elements_app, fold_left_app.
  rewrite elements_sepFree by (now destruct Hx as (_ & _ & _ & H)).
  simpl. now rewrite cleanStep_real.
Qed.

(** A trailing separator changes nothing. *)
Lemma Clean_trailing (a : string) :
  a <> "" -> filepath.Clean (a +:+ "/") = filepath.Clean a.
Proof.
  intros Ha. rewrite ?Clean_elements.
  pose proof (app_nonempty a "/" Ha) as Hne.
  apply String.eqb_neq in Hne, Ha. rewrite Hne, Ha.
  unfold filepath.scan. apply String.eqb_neq in Ha.
  rewrite isRooted_app by assumption.
  change (a +:+ "/") with (a +:+ "/" +:+ "").
  now rewrite elements_app, fold_left_app.
Qed.

(** A kept element after a cleaned directory: the same path as after the
    directory itself. *)
Lemma Clean_snoc_Clean (a x : string) :
  a <> "" -> real x ->
  filepath.Clean (filepath.Clean a +:+ "/" +:+ x) = filepath.Clean (a +:+ "/" +:+ x).
Proof.
  intros Ha Hx.
  rewrite (Clean_snoc a x Ha Hx).
  rewrite (Clean_snoc _ x (Clean_nonempty a) Hx).
  assert (Hcl : filepath.Clean a =
                filepath.render (filepath.isRooted a) (filepath.scan a)).
  { rewrite ?Clean_elements. apply String.eqb_neq in Ha. now rewrite Ha. }
  rewrite Hcl. pose proof (scan_written a) as Hw.
  now rewrite (render_rooted _ _ Hw), (scan_of_render _ _ Hw).
Qed.

(** A cleaned directory other than [.] and [/] followed by a kept
    element is clean as it stands. *)
Lemma Clean_snoc_literal (a x : string) :
  filepath.Clean a = a -> a <> "." -> a <> "/" -> real x ->
  filepath.Clean (a +:+ "/" +:+ x) = a +:+ "/" +:+ x.
Proof.
  intros Hc Hd Hr Hx.
  assert (Ha : a <> "") by (intros ->; now apply Hd).
  rewrite (Clean_snoc a x Ha Hx).
  pose proof (scan_written a) as Hw.
  rewrite Clean_elements in Hc. apply String.eqb_neq in Ha. rewrite Ha in Hc.
  destruct (filepath.scan a) as [|e out] eqn:Hs.
  - unfold filepath.render in Hc. simpl in Hc.
    destruct (filepath.isRooted a); now subst a.
  - assert (Hb := body_nonempty _ _ Hw ltac:(easy)).
    assert (Hne : rev (e :: out) <> []).
    { intros H. apply (f_equal (@rev string)) in H.
      now rewrite rev_involutive in H. }
    rewrite <- Hc at 2. unfold filepath.render.
    change (rev (x :: e :: out)) with (rev (e :: out) ++ [x]).
    rewrite concat_snoc by assumption.
    destruct (filepath.isRooted a); [reflexivity|].
    apply String.eqb_neq in Hb. rewrite Hb.
    destruct (String.eqb_spec (String.concat "/" (rev (e :: out)) +:+ "/" +:+ x) "")
      as [H|_]; [|reflexivity].
    apply String.eqb_neq in Hb. now destruct (String.concat "/" (rev (e :: out))).
Qed.

(** A kept element at the end of a path ends the cleaned path. *)
Lemma Clean_ends (a x : string) :
  real x -> exists q, filepath.Clean (a +:+ "/" +:+ x) = q +:+ x.
Proof.
  intros Hx. destruct (String.eqb_spec a "") as [->|Ha].
  - exists "/". rewrite ?Clean_elements. simpl.
    unfold filepath.scan. simpl.
    rewrite elements_sepFree by (now destruct Hx as (_ & _ & _ & H)).
    simpl. rewrite cleanStep_real by assumption. reflexivity.
  - rewrite (Clean_snoc a x Ha Hx). unfold filepath.render.
    change (rev (x :: filepath.scan a)) with (rev (filepath.scan a) ++ [x]).
    destruct (rev (filepath.scan a)) as [|e l] eqn:Hrev.
    + simpl. destruct (filepath.isRooted a); [now exists "/"|].
      destruct (String.eqb_spec x "") as [->|_]; [now destruct Hx | now exists ""].
    + rewrite concat_snoc by easy.
      destruct (filepath.isRooted a).
      * exists ("/" +:+ String.concat "/" (e :: l) +:+ "/").
        now rewrite !str_app_assoc.
      * destruct (String.eqb_spec (String.concat "/" (e :: l) +:+ "/" +:+ x) "") as [H|_].
        -- now destruct (String.concat "/" (e :: l)).
        -- exists (String.concat "/" (e :: l) +:+ "/"). now rewrite !str_app_assoc.
Qed.

Lemma Clean_real (x : string) : real x -> filepath.Clean x = x.
Proof.
  intros Hx. rewrite ?Clean_elements.
  destruct Hx as (H1 & H2 & H3 & H4).
  destruct (String.eqb_spec x "") as [|_]; [easy|].
  unfold filepath.scan. rewrite elements_sepFree by assumption. simpl.
  rewrite cleanStep_real by easy.
  assert (Hr : filepath.isRooted x = false).
  { destruct x as [|c x]; [easy|]. unfold sepFree in H4. simpl in H4.
    apply andb_prop in H4 as [Hc _]. unfold notSep in Hc.
    now apply negb_true_iff in Hc. }
  rewrite Hr. unfold filepath.render. simpl.
  now destruct (String.eqb_spec x "").
Qed.

End CleanPaths.

(** ** [filepath.Base], [filepath.Dir], [strings.TrimSuffix] *)

Section BaseDirFacts.

Lemma lastSeparator_skip (suf pre : string) :
  sepFree suf ->
  filepath.lastSeparator (pre +:+ suf) (String.length pre + String.length suf) =
  filepath.lastSeparator (pre +:+ suf) (String.length pre).
Proof.
  revert pre; induction suf as [|c suf IH]; intros pre Hp.
  - simpl. now rewrite Nat.add_0_r.
  - unfold sepFree in Hp. simpl in Hp. apply andb_prop in Hp as [Hc Hs].
    specialize (IH (pre +:+ String c "") Hs).
    rewrite str_app_assoc in IH. simpl in IH.
    rewrite str_length_app in IH. simpl in IH.
    replace (String.length pre + String.length (String c suf))
      with (String.length pre + 1 + String.length suf) by (simpl; lia).
    rewrite IH. rewrite Nat.add_1_r. simpl.
    rewrite str_get_app_at.
    unfold notSep in Hc. apply negb_true_iff in Hc. now rewrite Hc.
Qed.

(** In [a/f] the last separator is the one before the file name [f]. *)
Lemma lastSeparator_file (a f : string) :
  sepFree f ->
  filepath.lastSeparator (a +:+ "/" +:+ f) (String.length (a +:+ "/" +:+ f)) =
  S (String.length a).
Proof.
  intros Hf.
  replace (a +:+ "/" +:+ f) with ((a +:+ "/") +:+ f) by now rewrite str_app_assoc.
  rewrite str_length_app, lastSeparator_skip by assumption.
  rewrite str_length_app. simpl. rewrite Nat.add_1_r. simpl.
  rewrite str_app_assoc. simpl. now rewrite str_get_app_at.
Qed.

Lemma Dir_file (a f : string) :
  sepFree f -> filepath.Dir (a +:+ "/" +:+ f) = filepath.Clean (a +:+ "/").
Proof.
  intros Hf. unfold filepath.Dir. rewrite lastSeparator_file by assumption.
  replace (S (String.length a)) with (String.length (a +:+ "/"))
    by (rewrite str_length_app; simpl; lia).
  replace (a +:+ "/" +:+ f) with ((a +:+ "/") +:+ f) by now rewrite str_app_assoc.
  now rewrite str_take_app.
Qed.

Lemma last_byte (s : string) :
  s <> "" -> exists pre c, s = pre +:+ String c "".
Proof.
  induction s as [|x s IH]; [easy|]. intros _.
  destruct s as [|y s].
  - now exists "", x.
  - destruct IH as (pre & c & H); [easy|]. exists (String x pre), c.
    simpl. now rewrite <- H.
Qed.

Lemma stripTrailing_end (pre : string) (c : ascii) :
  notSep c = true ->
  filepath.stripTrailing (pre +:+ String c "") (String.length (pre +:+ String c "")) =
  String.length (pre +:+ String c "").
Proof.
  intros Hc. rewrite str_length_app. simpl. rewrite Nat.add_1_r. simpl.
  rewrite str_get_app_at. unfold notSep in Hc. apply negb_true_iff in Hc.
  now rewrite Hc.
Qed.

(** The base name of [a/f] is the file name [f]. *)
Lemma Base_file (a f : string) :
  f <> "" -> sepFree f -> filepath.Base (a +:+ "/" +:+ f) = f.
Proof.
  intros Hne Hf. unfold filepath.Base.
  destruct (String.eqb_spec (a +:+ "/" +:+ f) "") as [H|_]; [now destruct a|].
  destruct (last_byte f Hne) as (pre & c & Hpc).
  assert (Hc : notSep c = true).
  { unfold sepFree in Hf. rewrite Hpc, str_all_app in Hf.
    apply andb_prop in Hf as [_ Hf]. simpl in Hf. now apply andb_prop in Hf. }
  assert (Hstrip :
    filepath.stripTrailing (a +:+ "/" +:+ f) (String.length (a +:+ "/" +:+ f)) =
    String.length (a +:+ "/" +:+ f)).
  { rewrite Hpc.
    replace (a +:+ "/" +:+ pre +:+ String c "")
      with ((a +:+ "/" +:+ pre) +:+ String c "") by now rewrite !str_app_assoc.
    now apply stripTrailing_end. }
  rewrite Hstrip, str_take_all, lastSeparator_file by assumption.
  replace (S (String.length a)) with (String.length (a +:+ "/"))
    by (rewrite str_length_app; simpl; lia).
  replace (a +:+ "/" +:+ f) with ((a +:+ "/") +:+ f) by now rewrite str_app_assoc.
  rewrite str_drop_app.
  now destruct (String.eqb_spec f "").
Qed.

Lemma TrimSuffix_app (b suffix : string) :
  strings.TrimSuffix (b +:+ suffix) suffix = b.
Proof.
  unfold strings.TrimSuffix, strings.HasSuffix, bytes.hasSuffix.
  rewrite str_length_app.
  replace (String.length b + String.length suffix - String.length suffix)
    with (String.length b) by lia.
  rewrite str_drop_app, String.eqb_refl, str_take_app.
  now destruct (Nat.leb_spec (String.length suffix) (String.length b + String.length suffix)); [|lia].
Qed.

(** A path has no separator, or ends with a separator-free element after
    its last separator. *)
Lemma split_last (s : string) :
  sepFree s \/ exists a b, s = a +:+ "/" +:+ b /\ sepFree b.
Proof.
  induction s as [|c s IH]; [now left|].
  destruct IH as [Hs | (a & b & -> & Hb)].
  - destruct (filepath.IsPathSeparator c) eqn:Hc.
    + right. exists "", s. split; [|assumption].
      unfold filepath.IsPathSeparator in Hc. apply Ascii.eqb_eq in Hc. now subst c.
    + left. unfold sepFree in *. simpl. unfold notSep at 1. now rewrite Hc.
  - right. now exists (String c a), b.
Qed.

End BaseDirFacts.

(** ** [time.Format] *)

Section TimeFacts.

Lemma string_of_uint_digits (u : Decimal.uint) :
  bytes.all isDigit (NilEmpty.string_of_uint u) = true.
Proof. induction u; simpl; auto. Qed.

Lemma NilZero_digits (u : Decimal.uint) :
  bytes.all isDigit (NilZero.string_of_uint u) = true.
Proof.
  unfold NilZero.string_of_uint.
  destruct u; [reflexivity | apply string_of_uint_digits ..].
Qed.

Lemma appendInt_digits (x width : nat) :
  bytes.all isDigit (time.appendInt x width) = true.
Proof.
  unfold time.appendInt. rewrite str_all_app, NilZero_digits.
  now rewrite str_all_repeat.
Qed.

Lemma appendInt_width2 (x : nat) :
  x < 100 -> String.length (time.appendInt x 2) = 2.
Proof.
  intros Hx.
  assert (H : forallb (fun y => String.length (time.appendInt y 2) =? 2) (seq 0 100) = true)
    by (vm_compute; reflexivity).
  rewrite forallb_forall in H. apply Nat.eqb_eq, H, in_seq. lia.
Qed.

Lemma appendInt_width4 (x : nat) :
  x < 100 * 100 -> String.length (time.appendInt x 4) = 4.
Proof.
  intros Hx.
  assert (H : forallb (fun y => String.length (time.appendInt y 4) =? 4)
                (seq 0 (100 * 100)) = true)
    by (vm_compute; reflexivity).
  rewrite forallb_forall in H. apply Nat.eqb_eq, H, in_seq. lia.
Qed.

Lemma stamp_unfold (t : time.Time) :
  stamp t =
  time.appendInt (time.Year t) 4 +:+ time.appendInt (time.Month t) 2 +:+
  time.appendInt (time.Day t) 2 +:+ "_" +:+
  time.appendInt (time.Hour t) 2 +:+ time.appendInt (time.Minute t) 2 +:+
  time.appendInt (time.Second t) 2.
Proof.
  reflexivity.
Qed.

(** A calendar reading is printed as [YYYYMMDD_HHMMSS]. *)
Lemma stamp_civil (t : time.Time) :
  time.civil t ->
  exists YYYY MM DD hh mm ss,
    stamp t = YYYY +:+ MM +:+ DD +:+ "_" +:+ hh +:+ mm +:+ ss /\
    digits 4 YYYY /\ digits 2 MM /\ digits 2 DD /\
    digits 2 hh /\ digits 2 mm /\ digits 2 ss.
Proof.
  intros (HY & HM & HD & Hh & Hm & Hs).
  exists (time.appendInt (time.Year t) 4), (time.appendInt (time.Month t) 2),
    (time.appendInt (time.Day t) 2), (time.appendInt (time.Hour t) 2),
    (time.appendInt (time.Minute t) 2), (time.appendInt (time.Second t) 2).
  split; [apply stamp_unfold|].
  unfold digits.
  repeat split; try apply appendInt_digits;
    try (apply appendInt_width2; lia); now apply appendInt_width4.
Qed.

Lemma digitsValueFrom_uint (d : Decimal.uint) (acc : nat) :
  digitsValueFrom acc (NilEmpty.string_of_uint d) = Nat.of_uint_acc d acc.
Proof.
  revert acc. induction d; intros acc; simpl; [reflexivity|..];
    rewrite IHd, Nat.tail_mul_spec; f_equal; vm_compute (nat_of_ascii _ - 48); lia.
Qed.

Lemma digitsValue_decimal (x : nat) :
  digitsValue (NilZero.string_of_uint (Nat.to_uint x)) = x.
Proof.
  unfold digitsValue, NilZero.string_of_uint.
  rewrite <- (DecimalNat.Unsigned.of_to x) at 2. unfold Nat.of_uint.
  destruct (Nat.to_uint x); try apply digitsValueFrom_uint. reflexivity.
Qed.

(** Padding zeros do not change the value: what [appendInt] prints reads
    back as the number printed. *)
Lemma digitsValue_appendInt (x width : nat) :
  digitsValue (time.appendInt x width) = x.
Proof.
  unfold time.appendInt.
  generalize (width - String.length (NilZero.string_of_uint (Nat.to_uint x))).
  intros k. rewrite <- (digitsValue_decimal x) at 2. unfold digitsValue.
  induction k as [|k IH]; [reflexivity|]. simpl. exact IH.
Qed.


Lemma isDigit_stampByte (s : string) :
  bytes.all isDigit s = true -> bytes.all stampByte s = true.
Proof. apply str_all_impl. intros c H. unfold stampByte. now rewrite H. Qed.

Lemma appendInt_stampBytes (x width : nat) :
  bytes.all stampByte (time.appendInt x width) = true.
Proof. apply isDigit_stampByte, appendInt_digits. Qed.

(** Only digits and the underscore stand in a stamp. *)
Lemma stamp_bytes (t : time.Time) : bytes.all stampByte (stamp t) = true.
Proof.
  rewrite stamp_unfold. rewrite !str_all_app.
  rewrite !appendInt_stampBytes. reflexivity.
Qed.

Lemma stampByte_notSepDot (c : ascii) : stampByte c = true -> notSepDot c = true.
Proof.
  unfold stampByte, notSepDot, filepath.IsPathSeparator, filepath.Separator, isDigit.
  destruct (Ascii.eqb_spec c "/") as [->|_]; [intros H; now vm_compute in H|].
  destruct (Ascii.eqb_spec c ".") as [->|_]; [intros H; now vm_compute in H|].
  reflexivity.
Qed.

Lemma stamp_plain (t : time.Time) : plain (stamp t).
Proof.
  unfold plain. eapply str_all_impl; [apply stampByte_notSepDot | apply stamp_bytes].
Qed.

End TimeFacts.

(** ** Names with an underscore *)

Lemma hasUnderscore_app (a b : string) :
  hasUnderscore (a +:+ "_" +:+ b) = true.
Proof. induction a as [|c a IH]; simpl in *; [reflexivity | now rewrite IH, orb_true_r]. Qed.

(** A separator-free name with an underscore in it is an element that
    [Clean] keeps. *)
Lemma underscore_real (a b : string) :
  sepFree a -> sepFree b -> real (a +:+ "_" +:+ b).
Proof.
  intros Ha Hb. pose proof (hasUnderscore_app a b) as Hu.
  repeat split.
  - intros H. now rewrite H in Hu.
  - intros H. now rewrite H in Hu.
  - intros H. now rewrite H in Hu.
  - unfold sepFree in *. rewrite !str_all_app, Ha, Hb. reflexivity.
Qed.

(** ** [filepath.Join] of a directory and a file name *)

Section JoinFacts.

Lemma Join_two (d x : string) :
  d <> "" -> filepath.Join [d; x] = filepath.Clean (d +:+ "/" +:+ x).
Proof.
  intros Hd. unfold filepath.Join.
  apply String.eqb_neq in Hd. now rewrite Hd.
Qed.

Lemma Join_no_dir (x : string) :
  x <> "" -> filepath.Join [""; x] = filepath.Clean x.
Proof.
  intros Hx. unfold filepath.Join. simpl.
  apply String.eqb_neq in Hx. now rewrite Hx.
Qed.

(** Joining onto the cleaned directory or onto the directory as it was
    written gives the same path. *)
Lemma Join_Clean_dir (a x : string) :
  a <> "" -> real x -> filepath.Join [filepath.Clean a; x] = filepath.Join [a; x].
Proof.
  intros Ha Hx.
  rewrite (Join_two _ x (Clean_nonempty a)), (Join_two a x Ha).
  now apply Clean_snoc_Clean.
Qed.

(** Onto a clean directory other than [.] and [/], the join is the
    directory, a separator and the name. *)
Lemma Join_literal (a x : string) :
  filepath.Clean a = a -> a <> "." -> a <> "/" -> real x ->
  filepath.Join [a; x] = a +:+ "/" +:+ x.
Proof.
  intros Hc Hd Hr Hx.
  assert (Ha : a <> "") by (intros ->; now apply Hd).
  rewrite (Join_two a x Ha). now apply Clean_snoc_literal.
Qed.

(** A name that ends with an underscore and a separator-free tail still
    ends with them after the join. *)
Lemma Join_ends (d name tail : string) :
  sepFree tail ->
  exists q, filepath.Join [d; name +:+ "_" +:+ tail] = q +:+ "_" +:+ tail.
Proof.
  intros Ht.
  assert (Hne : name +:+ "_" +:+ tail <> "").
  { pose proof (hasUnderscore_app name tail) as Hu. intros H. now rewrite H in Hu. }
  destruct (split_last name) as [Hn | (a & b & -> & Hb)].
  - pose proof (underscore_real name tail Hn Ht) as Hreal.
    destruct (String.eqb_spec d "") as [->|Hd].
    + rewrite Join_no_dir, Clean_real by assumption. now exists name.
    + rewrite Join_two by assumption.
      destruct (Clean_ends d _ Hreal) as [q Hq]. rewrite Hq.
      exists (q +:+ name). now rewrite !str_app_assoc.
  - pose proof (underscore_real b tail Hb Ht) as Hreal.
    destruct (String.eqb_spec d "") as [->|Hd].
    + rewrite Join_no_dir by assumption.
      replace ((a +:+ "/" +:+ b) +:+ "_" +:+ tail)
        with (a +:+ "/" +:+ b +:+ "_" +:+ tail) by now rewrite !str_app_assoc.
      destruct (Clean_ends a _ Hreal) as [q Hq]. rewrite Hq.
      exists (q +:+ b). now rewrite !str_app_assoc.
    + rewrite Join_two by assumption.
      replace (d +:+ "/" +:+ (a +:+ "/" +:+ b) +:+ "_" +:+ tail)
        with ((d +:+ "/" +:+ a) +:+ "/" +:+ b +:+ "_" +:+ tail)
        by now rewrite !str_app_assoc.
      destruct (Clean_ends (d +:+ "/" +:+ a) _ Hreal) as [q Hq]. rewrite Hq.
      exists (q +:+ b). now rewrite !str_app_assoc.
Qed.

End JoinFacts.

(** ** The timestamped path *)

Section TimestampedPath.

Lemma Sprintf_stamped (name timestamp ext : string) :
  fmt.Sprintf "%s_%s%s" [name; timestamp; ext] = name +:+ "_" +:+ timestamp +:+ ext.
Proof. cbn. now rewrite str_app_nil_r. Qed.

(** The slice [baseFileName[:len(baseFileName)-len(ext)]] is in range and
    is the stem. *)
Lemma stem_slice (stem ext : string) :
  sliceTo (stem +:+ ext)
    (Z.of_nat (String.length (stem +:+ ext)) - Z.of_nat (String.length ext)) =
  Done stem.
Proof.
  unfold sliceTo. rewrite str_length_app.
  replace (Z.of_nat (String.length stem + String.length ext) -
           Z.of_nat (String.length ext))%Z
    with (Z.of_nat (String.length stem)) by lia.
  rewrite Nat2Z.id, str_take_app.
  destruct (Z.leb_spec 0 (Z.of_nat (String.length stem))); [|lia].
  destruct (Z.leb_spec (Z.of_nat (String.length stem))
              (Z.of_nat (String.length stem + String.length ext))); [|lia].
  reflexivity.
Qed.

Lemma generateTimestampedFilePath_run
    (outputDir baseFileName stem : string) (w : World) (s : State) :
  baseFileName = stem +:+ filepath.Ext baseFileName ->
  generateTimestampedFilePath outputDir baseFileName w s =
  (Done (filepath.Join
           [outputDir; stem +:+ "_" +:+ stamp (Now w) +:+ filepath.Ext baseFileName]),
   s).
Proof.
  intros Hstem. unfold generateTimestampedFilePath, bind, ask, liftOutcome, ret.
  pose proof (stem_slice stem (filepath.Ext baseFileName)) as Hslice.
  rewrite <- Hstem in Hslice. rewrite Hslice.
  now rewrite Sprintf_stamped.
Qed.

End TimestampedPath.


(** C8. [generateTimestampedFilePath] returns a path for every base file
    name: the slice that cuts the stem is in range, so there is no panic.
    For a base name without a dot the extension is empty and the path ends
    with the underscore and the stamp. *)
Theorem generateTimestampedFilePath_total
    (outputDir baseFileName : string) (w : World) (s : State) :
  (exists stem,
     sliceTo baseFileName
       (Z.of_nat (String.length baseFileName) -
        Z.of_nat (String.length (filepath.Ext baseFileName))) = Done stem) /\
  (exists path,
     generateTimestampedFilePath outputDir baseFileName w s = (Done path, s)) /\
  (dotFree baseFileName ->
   filepath.Ext baseFileName = "" /\
   generateTimestampedFilePath outputDir baseFileName w s =
     (Done (filepath.Join [outputDir; baseFileName +:+ "_" +:+ stamp (Now w)]), s) /\
   exists q,
     filepath.Join [outputDir; baseFileName +:+ "_" +:+ stamp (Now w)] =
     q +:+ "_" +:+ stamp (Now w)).
Proof.
  destruct (Ext_suffix baseFileName) as [stem Hstem].
  split; [|split].
  - exists stem. rewrite Hstem at 1 2. apply stem_slice.
  - eexists. apply (generateTimestampedFilePath_run _ _ stem). exact Hstem.
  - intros Hdot. pose proof (Ext_dotFree _ Hdot) as Hext.
    split; [exact Hext|]. split.
    + rewrite (generateTimestampedFilePath_run outputDir baseFileName baseFileName).
      * now rewrite Hext, str_app_nil_r.
      * now rewrite Hext, str_app_nil_r.
    + apply Join_ends, plain_sepFree, stamp_plain.
Qed.


Lemma generateTimestampedFilePath_total_witness :
  dotFree "README" /\
  generateTimestampedFilePath "output" "README" notesWorld notesState =
    (Done "output/README_20240131_230509", notesState) /\
  generateTimestampedFilePath "output" "" notesWorld notesState =
    (Done "output/_20240131_230509", notesState).
Proof.
  split; [reflexivity|]. split.
  - destruct (generateTimestampedFilePath_total "output" "README" notesWorld notesState)
      as (_ & _ & H).
    destruct (H eq_refl) as (_ & Hrun & _). rewrite Hrun. reflexivity.
  - destruct (generateTimestampedFilePath_total "output" "" notesWorld notesState)
      as (_ & _ & H).
    destruct (H eq_refl) as (_ & Hrun & _). rewrite Hrun. reflexivity.
Defined.

(** In the directory [output], which is the only one [processTranscription]
    passes, and for a base name without a separator, the path is the plain
    concatenation [output/<stem>_<stamp><ext>]. *)
Lemma generateTimestampedFilePath_output (baseFileName : string) (w : World) (s : State) :
  sepFree baseFileName ->
  exists stem,
    baseFileName = stem +:+ filepath.Ext baseFileName /\
    generateTimestampedFilePath "output" baseFileName w s =
    (Done ("output/" +:+ stem +:+ "_" +:+ stamp (Now w) +:+ filepath.Ext baseFileName), s).
Proof.
  intros Hbase. destruct (Ext_suffix baseFileName) as [stem Hstem].
  exists stem. split; [exact Hstem|].
  rewrite (generateTimestampedFilePath_run _ _ stem) by exact Hstem.
  assert (Hparts : sepFree stem /\ sepFree (filepath.Ext baseFileName)).
  { unfold sepFree in *. rewrite Hstem, str_all_app in Hbase.
    now apply andb_prop in Hbase. }
  destruct Hparts as [Hs He].
  rewrite Join_literal; [reflexivity | reflexivity | easy | easy |].
  apply underscore_real; [assumption|].
  unfold sepFree in *. rewrite str_all_app, He.
  now rewrite (plain_sepFree _ (stamp_plain (Now w))).
Qed.

Example timestamped_example :
  generateTimestampedFilePath "output" "transcription.txt" notesWorld notesState =
  (Done "output/transcription_20240131_230509.txt", notesState).
Proof. reflexivity. Qed.

(** ** The notes path *)

Section NotesPath.

Lemma Sprintf_notes (baseName : string) :
  fmt.Sprintf "%s_emacs_org_notes.org" [baseName] = baseName +:+ "_emacs_org_notes.org".
Proof. reflexivity. Qed.

Lemma notes_name_real (b : string) : sepFree b -> real (b +:+ "_emacs_org_notes.org").
Proof. intros Hb. now apply (underscore_real b "emacs_org_notes.org"). Qed.

Lemma file_name_sepFree (b e : string) :
  sepFree b -> plain e -> sepFree (b +:+ "." +:+ e).
Proof.
  intros Hb He. apply plain_sepFree in He. unfold sepFree in *.
  now rewrite !str_all_app, Hb, He.
Qed.

End NotesPath.

(** C4. For a reference path [a/b.e] (a directory [a], a name [b] without
    separator and an extension [e] without dot or separator), the notes path
    is the directory [a] joined with [b_emacs_org_notes.org]: for a clean
    directory other than [.] and [/] that is [a/b_emacs_org_notes.org] as it
    is written, and [a/b.txt] maps to [a/b_emacs_org_notes.org]. *)
Theorem generateOrgFilePath_spec (a b e : string) :
  a <> "" -> sepFree b -> plain e ->
  generateOrgFilePath (a +:+ "/" +:+ b +:+ "." +:+ e) =
    filepath.Join [a; b +:+ "_emacs_org_notes.org"] /\
  (filepath.Clean a = a -> a <> "." -> a <> "/" ->
   generateOrgFilePath (a +:+ "/" +:+ b +:+ "." +:+ e) =
     a +:+ "/" +:+ b +:+ "_emacs_org_notes.org") /\
  generateOrgFilePath "a/b.txt" = "a/b_emacs_org_notes.org".
Proof.
  intros Ha Hb He.
  pose proof (file_name_sepFree b e Hb He) as Hf.
  pose proof (notes_name_real b Hb) as Hreal.
  assert (Hgen : generateOrgFilePath (a +:+ "/" +:+ b +:+ "." +:+ e) =
                 filepath.Join [a; b +:+ "_emacs_org_notes.org"]).
  { unfold generateOrgFilePath.
    rewrite Dir_file, Base_file by (assumption || now destruct b).
    replace (a +:+ "/" +:+ b +:+ "." +:+ e) with ((a +:+ "/" +:+ b) +:+ "." +:+ e)
      by now rewrite !str_app_assoc.
    rewrite Ext_dot by assumption.
    rewrite TrimSuffix_app, Sprintf_notes, Clean_trailing by assumption.
    now apply Join_Clean_dir. }
  split; [exact Hgen|]. split; [|reflexivity].
  intros Hc Hd Hr. rewrite Hgen. now apply Join_literal.
Qed.

Lemma generateOrgFilePath_witness :
  "out/put" <> "" /\ sepFree "notes.2024" /\ plain "txt" /\
  generateOrgFilePath "out/put/notes.2024.txt" =
    filepath.Join ["out/put"; "notes.2024_emacs_org_notes.org"].
Proof.
  split; [easy|]. split; [reflexivity|]. split; [reflexivity|].
  apply (generateOrgFilePath_spec "out/put" "notes.2024" "txt"); easy.
Defined.

(** ** The prompt *)

(** C10. The prompt is the transcription between a head and a tail that do
    not depend on it; the request that [createEmacsOrgNotes] sends carries
    this prompt as the content of its one user message; equal transcriptions
    give equal prompts. *)
Theorem createPrompt_spec :
  (forall transcriptionText : string,
     createPrompt transcriptionText = promptHead +:+ transcriptionText +:+ promptTail) /\
  (forall transcriptionText apiKey : string,
     exists message : gmap string string,
       Body (chatRequest transcriptionText apiKey) = ChatBody "gpt-4" [message] 1500 "0.7" /\
       message !! "content" = Some (createPrompt transcriptionText) /\
       message !! "role" = Some "user") /\
  (forall t1 t2 : string, t1 = t2 -> createPrompt t1 = createPrompt t2) /\
  (forall t1 t2 : string, createPrompt t1 = createPrompt t2 -> t1 = t2).
Proof.
  assert (Hsplit : forall t, createPrompt t = promptHead +:+ t +:+ promptTail).
  { intros t. unfold createPrompt. vm_compute. reflexivity. }
  split; [exact Hsplit|]. split; [|split].
  - intros t k. eexists. split; [reflexivity|]. split.
    + apply lookup_insert_eq.
    + rewrite lookup_insert_ne by easy. apply lookup_singleton_eq.
  - now intros t1 t2 ->.
  - intros t1 t2. rewrite !Hsplit. intros H.
    apply str_app_inv_head in H. now apply str_app_inv_tail in H.
Qed.

(** ** Stages of a run *)

Section RunFacts.

Lemma generateTimestampedFilePath_pure
    (outputDir baseFileName : string) (w : World) (s : State) :
  generateTimestampedFilePath outputDir baseFileName w s =
  (Done (timestampedPath outputDir baseFileName (Now w)), s).
Proof.
  destruct (Ext_suffix baseFileName) as [stem Hstem].
  rewrite (generateTimestampedFilePath_run _ _ stem _ _ Hstem).
  unfold timestampedPath.
  remember (filepath.Ext baseFileName) as ext eqn:Hext. clear Hext.
  subst baseFileName. rewrite str_length_app.
  replace (String.length stem + String.length ext - String.length ext)
    with (String.length stem) by lia.
  now rewrite str_take_app.
Qed.

(** [loadEnv]: one log entry, the read of [.env], and one more log entry
    when the file could not be loaded. *)
Lemma loadEnv_run (w : World) (s : State) :
  loadEnv w s = (Done tt, afterLoadEnv w s).
Proof.
  unfold loadEnv, afterLoadEnv, envAfterLoad, dotenvNotice. run_ops. simpl.
  destruct (files s !! ".env") as [content|]; simpl.
  - destruct (dotenvParse w content) as [err|vars]; simpl;
      f_equal; f_equal; trace_done.
  - f_equal. f_equal. trace_done.
Qed.

Lemma dotenvNotice_quiet (w : World) (s : State) :
  forallb (fun e => negb (isPost e) && negb (isFileOp e)) (dotenvNotice w s) = true.
Proof.
  unfold dotenvNotice. destruct (files s !! ".env") as [content|]; [|reflexivity].
  now destruct (dotenvParse w content).
Qed.

Lemma bind_run {A B} (c : M A) (k : A -> M B) (w : World) (s : State) :
  bind c k w s =
  match c w s with
  | (Done a, s') => k a w s'
  | (Fatal, s') => (Fatal, s')
  | (Panic msg, s') => (Panic msg, s')
  end.
Proof. reflexivity. Qed.

Lemma getEnv_run (key : string) (w : World) (s : State) :
  getEnv key w s =
  if String.eqb (default "" (env s !! key)) ""
  then (Fatal,
        mkState (env s) (files s) (dirs s)
          (events s ++ [EvLog (key +:+ " not set in environment")]))
  else (Done (default "" (env s !! key)), s).
Proof.
  unfold getEnv. run_ops. simpl.
  now destruct (String.eqb (default "" (env s !! key)) "").
Qed.

(** What [processTranscription] may do: it never posts to the chat
    endpoint, it writes no file but the stamped output, and it leaves
    every other file as it was. *)
Lemma processTranscription_trace (config : Config) (w : World) (s : State) :
  let path := timestampedPath "output" (outputName config) (Now w) in
  exists evs,
    events (processTranscription config w s).2 = events s ++ evs /\
    forallb (fun e => negb (isChatPost e)) evs = true /\
    Forall (fun pc => pc.1 = path) (writtenFiles evs) /\
    (forall p, p <> path ->
               files (processTranscription config w s).2 !! p = files s !! p).
Proof.
  unfold processTranscription, transcribeAudio, createOutputDir, writeToFile,
    readExistingTranscription.
  fold (outputName config).
  destruct (String.eqb (AudioFilePath config) ""); simpl.
  - destruct (String.eqb (TranscriptionFilePath config) ""); simpl.
    + exists []. rewrite app_nil_r. repeat split; constructor.
    + run_ops. simpl. repeat case_run;
        (eexists; split; [trace_done|]; repeat split; try constructor).
  - run_ops. simpl.
    repeat (rewrite ?generateTimestampedFilePath_pure; simpl; try case_run);
      (eexists; split; [trace_done|]; split; [reflexivity|]; split;
       [repeat constructor|]; intros p Hp; simpl;
       rewrite ?lookup_insert_ne by congruence; reflexivity).
Qed.

End RunFacts.

(** ** The existing-transcription branch *)

(** C9. With no audio path and a transcription path, the output file name
    is not looked at: the run is the same for every value of it.  The run
    logs, reads the transcription file and returns its content with the
    transcription path as the reference path (or stops with a fatal error
    when the file cannot be read); it neither looks for nor creates the
    output directory, and writes no file. *)
Theorem processTranscription_existing (config : Config) (w : World) (s : State) :
  AudioFilePath config = "" ->
  TranscriptionFilePath config <> "" ->
  (forall name : string,
     processTranscription (withOutputFileName config name) w s =
     processTranscription config w s) /\
  (exists evs,
     events (processTranscription config w s).2 = events s ++ evs /\
     forallb (fun e => negb (isDirOrWriteOp e)) evs = true /\
     files (processTranscription config w s).2 = files s /\
     dirs (processTranscription config w s).2 = dirs s) /\
  (forall content,
     files s !! TranscriptionFilePath config = Some content ->
     (processTranscription config w s).1 = Done (content, TranscriptionFilePath config)) /\
  (files s !! TranscriptionFilePath config = None ->
   (processTranscription config w s).1 = Fatal).
Proof.
  intros Ha Ht. apply String.eqb_neq in Ht.
  unfold processTranscription, withOutputFileName, readExistingTranscription.
  simpl. rewrite Ha, Ht. simpl. run_ops. simpl.
  split; [reflexivity|].
  destruct (files s !! TranscriptionFilePath config) as [content|]; simpl.
  - split; [eexists; split; [trace_done | easy]|].
    split; [now intros ? [= <-] | easy].
  - split; [eexists; split; [trace_done | easy]|].
    split; [easy | reflexivity].
Qed.

Lemma processTranscription_existing_witness :
  AudioFilePath existingConfig = "" /\
  TranscriptionFilePath existingConfig <> "" /\
  files notesState !! TranscriptionFilePath existingConfig = Some "meeting notes" /\
  (processTranscription existingConfig notesWorld notesState).1 =
    Done ("meeting notes", "meeting.txt").
Proof.
  split; [reflexivity|]. split; [easy|]. split; [reflexivity|].
  apply (processTranscription_existing existingConfig notesWorld notesState);
    [reflexivity | easy | reflexivity].
Defined.

(** ** The audio branch *)

(** C6. When the audio file is read and the transcription endpoint answers
    with a status that is no error and a body that decodes, the text that
    [processTranscription] hands to the writer is the [Text] field of the
    decoded response, unchanged: the only write of the run is of that text
    to the stamped output path; the write is reached unless the output
    directory cannot be created, and when the write succeeds the run
    returns the text and the file holds exactly the text. *)
Theorem processTranscription_writes_text
    (config : Config) (w : World) (s : State)
    (audioBytes body : string) (code : nat) (resp : TranscriptionResponse) :
  AudioFilePath config <> "" ->
  files s !! AudioFilePath config = Some audioBytes ->
  Post w (whisperRequest (AudioFilePath config) audioBytes (OpenAIAPIKey config)) =
    Reply code body ->
  IsError code = false ->
  unmarshalTranscription w body = inr resp ->
  let path := timestampedPath "output" (outputName config) (Now w) in
  let run := processTranscription config w s in
  exists evs,
    events run.2 = events s ++ evs /\
    Forall (fun pc => pc = (path, Text resp)) (writtenFiles evs) /\
    (mkdirError w "output" = None -> writtenFiles evs = [(path, Text resp)]) /\
    (mkdirError w "output" = None -> writeError w path = None ->
     run.1 = Done (Text resp, path) /\
     files run.2 = <[path := Text resp]> (files s)).
Proof.
  intros Ha Hfile Hpost Hcode Hjson path run. subst path run.
  apply String.eqb_neq in Ha.
  unfold processTranscription, transcribeAudio, createOutputDir, writeToFile.
  fold (outputName config). rewrite Ha. simpl. run_ops. simpl.
  rewrite Hfile. simpl. rewrite Hpost. simpl. rewrite Hcode. simpl.
  rewrite Hjson. simpl.
  repeat (rewrite ?generateTimestampedFilePath_pure; simpl; try case_run);
    (eexists; split; [trace_done|]; split; [repeat constructor|]; split;
     [try reflexivity; congruence|]; intros; split; try reflexivity; congruence).
Qed.

Lemma processTranscription_writes_text_witness :
  AudioFilePath audioConfig <> "" /\
  files notesState !! AudioFilePath audioConfig = Some "RIFF" /\
  Post notesWorld (whisperRequest (AudioFilePath audioConfig) "RIFF"
                     (OpenAIAPIKey audioConfig)) = Reply 200 "reply" /\
  IsError 200 = false /\
  unmarshalTranscription notesWorld "reply" = inr {| Text := "hello world" |} /\
  mkdirError notesWorld "output" = None /\
  writeError notesWorld "output/transcription_20240131_230509.txt" = None /\
  (processTranscription audioConfig notesWorld notesState).1 =
    Done ("hello world", "output/transcription_20240131_230509.txt") /\
  files (processTranscription audioConfig notesWorld notesState).2
    !! "output/transcription_20240131_230509.txt" = Some "hello world".
Proof.
  split; [easy|]. do 6 (split; [reflexivity|]).
  destruct (processTranscription_writes_text audioConfig notesWorld notesState
              "RIFF" "reply" 200 {| Text := "hello world" |})
    as (evs & _ & _ & _ & H); try reflexivity; [easy|].
  destruct H as [H1 H2]; try reflexivity.
  split; [exact H1|]. rewrite H2. apply lookup_insert_eq.
Defined.

(** ** The completion response *)

(** C1. When the completion endpoint answers with a status that is no
    error and a body that decodes to an empty list of choices,
    [createEmacsOrgNotes] does not end in a logged fatal error: the index
    [Choices[0]] is out of range and the run ends in a run-time panic, after
    the four events below and with no log entry for the failure.  No file is
    written. *)
Theorem createEmacsOrgNotes_empty_choices
    (transcriptionText apiKey baseFilePath : string) (w : World) (s : State)
    (code : nat) (body : string) (aiResponse : OpenAIResponse) :
  Post w (chatRequest transcriptionText apiKey) = Reply code body ->
  IsError code = false ->
  unmarshalOpenAI w body = inr aiResponse ->
  Choices aiResponse = [] ->
  createEmacsOrgNotes transcriptionText apiKey baseFilePath w s =
  (Panic "index out of range [0] with length 0",
   mkState (env s) (files s) (dirs s)
     (events s ++
      [EvLog "Starting post-processing with create_emacs_org_notes command...";
       EvLog "Sending request to OpenAI API...";
       EvPost (chatRequest transcriptionText apiKey);
       EvLog "Parsing OpenAI API response..."])).
Proof.
  intros Hpost Hcode Hjson Hempty.
  unfold createEmacsOrgNotes. run_ops. simpl.
  rewrite Hpost. simpl. rewrite Hcode. simpl. rewrite Hjson. simpl.
  rewrite Hempty. simpl. f_equal. f_equal. trace_done.
Qed.

Lemma createEmacsOrgNotes_empty_choices_witness :
  Post emptyChoicesWorld (chatRequest "meeting notes" "sk-test") = Reply 200 "reply" /\
  IsError 200 = false /\
  unmarshalOpenAI emptyChoicesWorld "reply" = inr {| Choices := [] |} /\
  Choices {| Choices := [] |} = [] /\
  (createEmacsOrgNotes "meeting notes" "sk-test" "meeting.txt"
     emptyChoicesWorld notesState).1 = Panic "index out of range [0] with length 0" /\
  files (createEmacsOrgNotes "meeting notes" "sk-test" "meeting.txt"
           emptyChoicesWorld notesState).2 = files notesState.
Proof.
  do 4 (split; [reflexivity|]).
  rewrite (createEmacsOrgNotes_empty_choices "meeting notes" "sk-test" "meeting.txt"
             emptyChoicesWorld notesState 200 "reply" {| Choices := [] |});
    [split; reflexivity | reflexivity ..].
Defined.

(** The whole program on the same answer: the run of [main] with the
    directive set ends in the panic, and the last thing logged is the
    parsing notice, not an error. *)
Lemma main_empty_choices :
  let run := main (mkConfig "" "meeting.txt" "" "create_emacs_org_notes" "")
               emptyChoicesWorld notesState in
  run.1 = Panic "index out of range [0] with length 0" /\
  last (events run.2) = Some (EvLog "Parsing OpenAI API response...") /\
  files run.2 = files notesState.
Proof. cbv zeta. split; [|split]; vm_compute; reflexivity. Qed.

(** ** Runs of [main] *)

Section MainFacts.

Lemma writtenFiles_app (l1 l2 : list Event) :
  writtenFiles (l1 ++ l2) = writtenFiles l1 ++ writtenFiles l2.
Proof.
  induction l1 as [|e l1 IH]; [reflexivity|].
  destruct e; simpl; now rewrite ?IH.
Qed.

Lemma quiet_writtenFiles (evs : list Event) :
  forallb (fun e => negb (isPost e) && negb (isFileOp e)) evs = true ->
  writtenFiles evs = [].
Proof.
  induction evs as [|e evs IH]; [reflexivity|]. simpl.
  intros [He Hevs]%andb_prop. destruct e; simpl in *; auto; discriminate.
Qed.

Lemma quiet_no_chat (evs : list Event) :
  forallb (fun e => negb (isPost e) && negb (isFileOp e)) evs = true ->
  forallb (fun e => negb (isChatPost e)) evs = true.
Proof.
  induction evs as [|e evs IH]; [reflexivity|]. simpl.
  intros [He Hevs]%andb_prop. rewrite (IH Hevs).
  destruct e; simpl in *; auto; discriminate.
Qed.

Lemma quiet_dotenv (evs : list Event) :
  forallb (fun e => negb (isPost e) && negb (isFileOp e)) evs = true ->
  forallb (fun e => negb (isPost e) && (negb (isFileOp e) || isDotenvRead e)) evs = true.
Proof.
  induction evs as [|e evs IH]; [reflexivity|]. simpl.
  intros [He Hevs]%andb_prop. rewrite (IH Hevs).
  apply andb_prop in He as [-> ->]. reflexivity.
Qed.

Variables (config : Config) (w : World) (s : State).

(** The run of [main], stage by stage. *)
Lemma main_run :
  main config w s =
  if String.eqb (credential w s) ""
  then (Fatal, logged (afterLoadEnv w s) "OPENAI_API_KEY not set in environment")
  else if String.eqb (AudioFilePath config) "" &&
          String.eqb (TranscriptionFilePath config) ""
  then (Fatal, logged (afterLoadEnv w s)
                 "The -file or -transcription argument is required.")
  else
    match processTranscription (withCredential config (credential w s)) w
            (afterLoadEnv w s) with
    | (Done (transcriptionText, outputFilePath), s') =>
        if String.eqb (PostProcessCmd config) "create_emacs_org_notes"
        then createEmacsOrgNotes transcriptionText (credential w s) outputFilePath w s'
        else (Done tt, s')
    | (Fatal, s') => (Fatal, s')
    | (Panic msg, s') => (Panic msg, s')
    end.
Proof.
  unfold main. rewrite bind_run, loadEnv_run, bind_run, getEnv_run.
  change (default "" (env (afterLoadEnv w s) !! "OPENAI_API_KEY")) with (credential w s).
  destruct (String.eqb (credential w s) ""); [reflexivity|].
  cbn [AudioFilePath TranscriptionFilePath PostProcessCmd OpenAIAPIKey].
  destruct (String.eqb (AudioFilePath config) "" &&
            String.eqb (TranscriptionFilePath config) ""); [reflexivity|].
  rewrite bind_run. unfold withCredential.
  destruct (processTranscription _ w (afterLoadEnv w s)) as [[[t p]| |msg] s'];
    try reflexivity.
  now destruct (String.eqb (PostProcessCmd config) "create_emacs_org_notes").
Qed.

Lemma transcriptionStage_run :
  transcriptionStage config w s =
  if String.eqb (credential w s) ""
  then (Fatal, logged (afterLoadEnv w s) "OPENAI_API_KEY not set in environment")
  else if String.eqb (AudioFilePath config) "" &&
          String.eqb (TranscriptionFilePath config) ""
  then (Fatal, logged (afterLoadEnv w s)
                 "The -file or -transcription argument is required.")
  else processTranscription (withCredential config (credential w s)) w
         (afterLoadEnv w s).
Proof.
  unfold transcriptionStage. rewrite bind_run, loadEnv_run, bind_run, getEnv_run.
  change (default "" (env (afterLoadEnv w s) !! "OPENAI_API_KEY")) with (credential w s).
  destruct (String.eqb (credential w s) ""); [reflexivity|].
  cbn [AudioFilePath TranscriptionFilePath PostProcessCmd OpenAIAPIKey].
  now destruct (String.eqb (AudioFilePath config) "" &&
                String.eqb (TranscriptionFilePath config) "").
Qed.

(** The events of a run that stops before the transcription stage. *)
Lemma early_exit_events (msg : string) :
  events (logged (afterLoadEnv w s) msg) =
  events s ++
  (EvLog "Loading environment variables..." :: EvReadFile ".env" ::
     dotenvNotice w s ++ [EvLog msg]).
Proof. unfold logged, afterLoadEnv. simpl. now rewrite <- app_assoc. Qed.

End MainFacts.

(** ** The post-process directive *)

(** C5. When the post-process directive is not [create_emacs_org_notes]
    (the empty directive included), the run of [main] is the transcription
    stage and nothing more: no request goes to the completion endpoint, the
    only file the run may write is the stamped transcription output, and
    every other file is left as it was. *)
Theorem main_without_directive (config : Config) (w : World) (s : State) :
  PostProcessCmd config <> "create_emacs_org_notes" ->
  main config w s = (transcriptionStage config ;; ret tt) w s /\
  let path := timestampedPath "output" (outputName config) (Now w) in
  exists evs,
    events (main config w s).2 = events s ++ evs /\
    forallb (fun e => negb (isChatPost e)) evs = true /\
    Forall (fun pc => pc.1 = path) (writtenFiles evs) /\
    (forall p, p <> path -> files (main config w s).2 !! p = files s !! p).
Proof.
  intros Hpost. apply String.eqb_neq in Hpost.
  rewrite bind_run, main_run, transcriptionStage_run, Hpost.
  pose proof (dotenvNotice_quiet w s) as Hquiet.
  destruct (String.eqb (credential w s) "").
  { split; [reflexivity|]. eexists. split; [apply early_exit_events|].
    simpl. rewrite forallb_app, writtenFiles_app, (quiet_no_chat _ Hquiet),
      (quiet_writtenFiles _ Hquiet). simpl.
    split; [reflexivity|]. split; [constructor | reflexivity]. }
  destruct (String.eqb (AudioFilePath config) "" &&
            String.eqb (TranscriptionFilePath config) "").
  { split; [reflexivity|]. eexists. split; [apply early_exit_events|].
    simpl. rewrite forallb_app, writtenFiles_app, (quiet_no_chat _ Hquiet),
      (quiet_writtenFiles _ Hquiet). simpl.
    split; [reflexivity|]. split; [constructor | reflexivity]. }
  destruct (processTranscription_trace (withCredential config (credential w s)) w
              (afterLoadEnv w s)) as (evs1 & Hev & Hchat & Hwr & Hfiles).
  change (outputName (withCredential config (credential w s)))
    with (outputName config) in *.
  split.
  { now destruct (processTranscription _ w (afterLoadEnv w s)) as [[[t p]| |msg] s']. }
  exists (EvLog "Loading environment variables..." :: EvReadFile ".env" ::
            dotenvNotice w s ++ evs1).
  assert (Hsame :
    (match processTranscription (withCredential config (credential w s)) w
             (afterLoadEnv w s) with
     | (Done (transcriptionText, outputFilePath), s') => (Done tt, s')
     | (Fatal, s') => (Fatal, s')
     | (Panic msg, s') => (Panic msg, s')
     end).2 =
    (processTranscription (withCredential config (credential w s)) w
       (afterLoadEnv w s)).2).
  { now destruct (processTranscription _ w (afterLoadEnv w s)) as [[[t p]| |msg] s']. }
  rewrite Hsame, Hev. split; [simpl; now rewrite <- app_assoc|].
  simpl. rewrite forallb_app, writtenFiles_app, (quiet_no_chat _ Hquiet),
    (quiet_writtenFiles _ Hquiet), Hchat. simpl.
  split; [reflexivity|]. split; assumption.
Qed.

Lemma main_without_directive_witness :
  PostProcessCmd audioConfig <> "create_emacs_org_notes" /\
  main audioConfig notesWorld notesState =
    (transcriptionStage audioConfig ;; ret tt) notesWorld notesState.
Proof.
  split; [easy|].
  apply (main_without_directive audioConfig notesWorld notesState). easy.
Defined.

(** ** The input paths *)

Section InputFacts.

Lemma createEmacsOrgNotes_extends
    (transcriptionText apiKey baseFilePath : string) (w : World) (s : State) :
  exists evs,
    events (createEmacsOrgNotes transcriptionText apiKey baseFilePath w s).2 =
    events s ++ evs.
Proof.
  unfold createEmacsOrgNotes, writeToFile, firstChoice. run_ops. simpl.
  repeat case_run; eexists; trace_done.
Qed.

(** With an audio path, [processTranscription] starts by reading the
    audio file, and does not look at the transcription path. *)
Lemma processTranscription_audio (config : Config) (w : World) (s : State) :
  AudioFilePath config <> "" ->
  (forall path,
     processTranscription (withTranscriptionFilePath config path) w s =
     processTranscription config w s) /\
  exists evs,
    events (processTranscription config w s).2 =
    events s ++
    EvLog (fmt.Sprintf "Reading audio file: %s" [AudioFilePath config]) ::
    EvReadFile (AudioFilePath config) :: evs.
Proof.
  intros Ha. apply String.eqb_neq in Ha.
  unfold processTranscription, withTranscriptionFilePath, transcribeAudio,
    createOutputDir, writeToFile.
  cbn [AudioFilePath TranscriptionFilePath OutputFileName PostProcessCmd OpenAIAPIKey].
  rewrite Ha. simpl negb. cbv iota.
  split; [reflexivity|].
  run_ops. simpl.
  repeat (rewrite ?generateTimestampedFilePath_pure; simpl; try case_run);
    eexists; trace_done.
Qed.

End InputFacts.

(** ** Fatal ends and what they log *)

Section FatalFacts.

Lemma last_after {A} (l r : list A) (x : A) : last (l ++ x :: r) = last (x :: r).
Proof.
  induction l as [|y l IH]; [reflexivity|].
  rewrite <- IH. now destruct l.
Qed.

(** Every fatal end of the transcription stage proper logs an error that
    starts with [Error ]. *)
Lemma processTranscription_fatal_log (config : Config) (w : World) (s : State) :
  (processTranscription config w s).1 = Fatal ->
  exists rest,
    last (events (processTranscription config w s).2) = Some (EvLog ("Error " +:+ rest)).
Proof.
  unfold processTranscription, transcribeAudio, createOutputDir, writeToFile,
    readExistingTranscription.
  destruct (String.eqb (AudioFilePath config) ""); simpl.
  - destruct (String.eqb (TranscriptionFilePath config) ""); simpl; [discriminate|].
    run_ops. simpl. repeat case_run; simpl; try discriminate;
      intros _; rewrite <- ?app_assoc; simpl; rewrite last_after; simpl;
      eexists; reflexivity.
  - run_ops. simpl.
    repeat (rewrite ?generateTimestampedFilePath_pure; simpl; try case_run);
      simpl; try discriminate;
      intros _; rewrite <- ?app_assoc; simpl; rewrite last_after; simpl;
      eexists; reflexivity.
Qed.

Lemma createEmacsOrgNotes_fatal_log
    (transcriptionText apiKey baseFilePath : string) (w : World) (s : State) :
  (createEmacsOrgNotes transcriptionText apiKey baseFilePath w s).1 = Fatal ->
  exists rest,
    last (events (createEmacsOrgNotes transcriptionText apiKey baseFilePath w s).2) =
    Some (EvLog ("Error " +:+ rest)).
Proof.
  unfold createEmacsOrgNotes, writeToFile, firstChoice. run_ops. simpl.
  repeat case_run; simpl; try discriminate;
    intros _; rewrite <- ?app_assoc; simpl; rewrite last_after; simpl;
    eexists; reflexivity.
Qed.

(** Past the two checks of [main], a fatal end logs an error that starts
    with [Error ]. *)
Lemma main_fatal_log (config : Config) (w : World) (s : State) :
  credential w s <> "" ->
  AudioFilePath config <> "" \/ TranscriptionFilePath config <> "" ->
  (main config w s).1 = Fatal ->
  exists rest, last (events (main config w s).2) = Some (EvLog ("Error " +:+ rest)).
Proof.
  intros Hc Hin. rewrite main_run.
  apply String.eqb_neq in Hc. rewrite Hc.
  assert (Hboth : String.eqb (AudioFilePath config) "" &&
                  String.eqb (TranscriptionFilePath config) "" = false).
  { destruct Hin as [H|H]; apply String.eqb_neq in H; rewrite H;
      [reflexivity | apply andb_false_r]. }
  rewrite Hboth.
  pose proof (processTranscription_fatal_log (withCredential config (credential w s)) w
                (afterLoadEnv w s)) as Hp.
  destruct (processTranscription _ w (afterLoadEnv w s)) as [[[text path]| |msg] s1];
    simpl in *; [| intros _; now apply Hp | discriminate].
  destruct (String.eqb (PostProcessCmd config) "create_emacs_org_notes");
    [|discriminate].
  apply createEmacsOrgNotes_fatal_log.
Qed.

(** The missing-credential end of [main]. *)
Lemma main_no_credential (config : Config) (w : World) (s : State) :
  credential w s = "" ->
  (main config w s).1 = Fatal /\
  last (events (main config w s).2) =
    Some (EvLog "OPENAI_API_KEY not set in environment").
Proof.
  intros Hc. rewrite main_run, Hc. simpl. split; [reflexivity|]. apply last_snoc.
Qed.

(** The usage error is logged in one situation only. *)
Lemma usage_error_iff (config : Config) (w : World) (s : State) :
  stopsWithUsageError config w s <->
  AudioFilePath config = "" /\ TranscriptionFilePath config = "" /\ credential w s <> "".
Proof.
  unfold stopsWithUsageError, usageMessage. split.
  - intros [Hf Hl].
    destruct (String.eqb_spec (credential w s) "") as [Hc|Hc].
    { destruct (main_no_credential config w s Hc) as [_ H].
      rewrite H in Hl. discriminate. }
    destruct (String.eqb_spec (AudioFilePath config) "") as [Ha|Ha].
    + destruct (String.eqb_spec (TranscriptionFilePath config) "") as [Ht|Ht]; [easy|].
      destruct (main_fatal_log config w s Hc (or_intror Ht) Hf) as [rest H].
      rewrite H in Hl. discriminate.
    + destruct (main_fatal_log config w s Hc (or_introl Ha) Hf) as [rest H].
      rewrite H in Hl. discriminate.
  - intros (Ha & Ht & Hc). rewrite main_run, Ha, Ht.
    apply String.eqb_neq in Hc. rewrite Hc. simpl.
    split; [reflexivity | apply last_snoc].
Qed.

End FatalFacts.

(** C2, as the code has it.  With both paths empty the run stops with a
    fatal error before the transcription stage: nothing is posted and no
    file is touched but [.env]; the error is the usage error when the
    credential is there, and the missing-credential error otherwise, since
    the credential is looked up first.  With an audio path the run does not
    stop with the usage error, whatever the transcription path is: the run
    is the same for every transcription path, and with the credential there
    it goes on to read the audio file.  Altogether the run stops with the
    usage error exactly when both paths are empty and the credential is
    there. *)
Theorem main_input_paths (config : Config) (w : World) (s : State) :
  (AudioFilePath config = "" -> TranscriptionFilePath config = "" ->
   (main config w s).1 = Fatal /\
   (exists evs,
      events (main config w s).2 = events s ++ evs /\
      forallb (fun e => negb (isPost e) && (negb (isFileOp e) || isDotenvRead e)) evs
        = true) /\
   (credential w s <> "" -> stopsWithUsageError config w s) /\
   (credential w s = "" ->
    last (events (main config w s).2) =
      Some (EvLog "OPENAI_API_KEY not set in environment"))) /\
  (AudioFilePath config <> "" ->
   ~ stopsWithUsageError config w s /\
   (forall path,
      main (withTranscriptionFilePath config path) w s = main config w s) /\
   (credential w s <> "" ->
    exists evs,
      events (main config w s).2 =
      events (afterLoadEnv w s) ++
      EvLog (fmt.Sprintf "Reading audio file: %s" [AudioFilePath config]) ::
      EvReadFile (AudioFilePath config) :: evs)) /\
  (stopsWithUsageError config w s <->
   AudioFilePath config = "" /\ TranscriptionFilePath config = "" /\
   credential w s <> "").
Proof.
  split; [|split; [|apply usage_error_iff]].
  - intros Ha Ht.
    pose proof (quiet_dotenv _ (dotenvNotice_quiet w s)) as Hquiet.
    assert (Hrun : (main config w s).1 = Fatal /\
                   exists evs,
                     events (main config w s).2 = events s ++ evs /\
                     forallb (fun e => negb (isPost e) &&
                                       (negb (isFileOp e) || isDotenvRead e)) evs = true).
    { rewrite main_run, Ha, Ht. simpl.
      destruct (String.eqb (credential w s) "");
        (split; [reflexivity|]; eexists; split; [apply early_exit_events|];
         simpl; now rewrite forallb_app, Hquiet). }
    destruct Hrun as [Hfatal Hevs].
    split; [exact Hfatal|]. split; [exact Hevs|]. split.
    + intros Hc. now apply usage_error_iff.
    + intros Hc. now apply main_no_credential.
  - intros Ha.
    destruct (processTranscription_audio (withCredential config (credential w s)) w
                (afterLoadEnv w s) Ha) as [Hsame (evs1 & Hev)].
    split; [|split].
    + intros Hu. apply usage_error_iff in Hu as (Hempty & _). now apply Ha.
    + intros path. rewrite !main_run.
      cbn [AudioFilePath TranscriptionFilePath PostProcessCmd withTranscriptionFilePath].
      apply String.eqb_neq in Ha. rewrite Ha. simpl.
      destruct (String.eqb (credential w s) ""); [reflexivity|].
      now rewrite <- (Hsame path).
    + intros Hc. rewrite main_run.
      apply String.eqb_neq in Hc, Ha. rewrite Hc, Ha. simpl.
      cbn [AudioFilePath withCredential] in Hev.
      destruct (processTranscription _ w (afterLoadEnv w s)) as [[[t p]| |msg] s'];
        simpl in Hev; try (exists evs1; exact Hev).
      destruct (String.eqb (PostProcessCmd config) "create_emacs_org_notes").
      * destruct (createEmacsOrgNotes_extends t (credential w s) p w s') as [evs2 H2].
        rewrite H2, Hev. exists (evs1 ++ evs2).
        now rewrite <- app_assoc.
      * exists evs1. exact Hev.
Qed.

Lemma main_input_paths_witness :
  (AudioFilePath bothConfig <> "" /\
   ~ stopsWithUsageError bothConfig notesWorld notesState /\
   main (withTranscriptionFilePath bothConfig "") notesWorld notesState =
   main bothConfig notesWorld notesState) /\
  (AudioFilePath noInputConfig = "" /\ TranscriptionFilePath noInputConfig = "" /\
   credential notesWorld notesState <> "" /\
   stopsWithUsageError noInputConfig notesWorld notesState).
Proof.
  assert (Ha : AudioFilePath bothConfig <> "") by discriminate.
  assert (Hc : credential notesWorld notesState <> "") by easy.
  destruct (main_input_paths bothConfig notesWorld notesState) as (_ & Hboth & _).
  destruct (Hboth Ha) as (Hno & Hsame & _).
  destruct (main_input_paths noInputConfig notesWorld notesState) as (Hnone & _ & _).
  destruct (Hnone eq_refl eq_refl) as (_ & _ & Husage & _).
  split; [split; [exact Ha | split; [exact Hno | apply Hsame]] |].
  split; [reflexivity|]. split; [reflexivity|]. split; [exact Hc | exact (Husage Hc)].
Defined.

(** With both paths set the run does not stop with the usage error: it
    transcribes the audio file and ends normally. *)
Lemma main_both_paths_counterexample :
  exactlyOneInput bothConfig = false /\
  (main bothConfig notesWorld notesState).1 = Done tt /\
  ~ stopsWithUsageError bothConfig notesWorld notesState.
Proof.
  split; [reflexivity|].
  assert (H : (main bothConfig notesWorld notesState).1 = Done tt)
    by (vm_compute; reflexivity).
  split; [exact H|]. intros [Hfatal _]. rewrite H in Hfatal. discriminate.
Qed.

(** ** The credential *)

(** C7, as the code has it.  When the credential is not in the environment
    once [.env] has been loaded, the run stops with a fatal error whose log
    entry is the last event; before that nothing is posted, and the only
    file operation is the read of [.env] by [loadEnv]; no file and no
    directory is changed. *)
Theorem main_missing_credential (config : Config) (w : World) (s : State) :
  credential w s = "" ->
  (main config w s).1 = Fatal /\
  (exists evs,
     events (main config w s).2 = events s ++ evs /\
     forallb (fun e => negb (isPost e) && (negb (isFileOp e) || isDotenvRead e)) evs
       = true /\
     last evs = Some (EvLog "OPENAI_API_KEY not set in environment")) /\
  files (main config w s).2 = files s /\
  dirs (main config w s).2 = dirs s.
Proof.
  intros Hc. rewrite main_run, Hc. simpl.
  split; [reflexivity|]. split; [|easy].
  eexists. split; [apply early_exit_events|]. split.
  - simpl. now rewrite forallb_app, (quiet_dotenv _ (dotenvNotice_quiet w s)).
  - change (EvLog "Loading environment variables..." :: EvReadFile ".env" ::
              dotenvNotice w s ++ [EvLog "OPENAI_API_KEY not set in environment"])
      with ((EvLog "Loading environment variables..." :: EvReadFile ".env" ::
               dotenvNotice w s) ++ [EvLog "OPENAI_API_KEY not set in environment"]).
    apply last_snoc.
Qed.

Lemma main_missing_credential_witness :
  credential dotenvWorld dotenvState = "" /\
  (main audioConfig dotenvWorld dotenvState).1 = Fatal /\
  files (main audioConfig dotenvWorld dotenvState).2 = files dotenvState.
Proof.
  split; [reflexivity|].
  destruct (main_missing_credential audioConfig dotenvWorld dotenvState)
    as (H1 & _ & H2 & _); [reflexivity|].
  split; [exact H1 | exact H2].
Defined.

(** Without the credential the run still reads [.env] before it stops. *)
Lemma main_missing_credential_counterexample :
  credential dotenvWorld dotenvState = "" /\
  In (EvReadFile ".env") (events (main audioConfig dotenvWorld dotenvState).2) /\
  ~ abortsBeforeFileAndNetwork audioConfig dotenvWorld dotenvState.
Proof.
  split; [reflexivity|].
  assert (Hev : events (main audioConfig dotenvWorld dotenvState).2 =
                [EvLog "Loading environment variables..."; EvReadFile ".env";
                 EvLog "OPENAI_API_KEY not set in environment"])
    by (vm_compute; reflexivity).
  split; [rewrite Hev; simpl; auto|].
  intros (_ & evs & Hevs & Hall). rewrite Hev in Hevs. simpl in Hevs.
  subst evs. discriminate Hall.
Qed.

(** * Further properties *)

(** ** More on the notes path *)

Section NotesPathMore.

Lemma lastSeparator_sepFree (f : string) :
  sepFree f -> filepath.lastSeparator f (String.length f) = 0.
Proof.
  intros Hf. pose proof (lastSeparator_skip f "" Hf) as H. simpl in H. exact H.
Qed.

(** A file name without directory is its own base name. *)
Lemma Base_name (f : string) : f <> "" -> sepFree f -> filepath.Base f = f.
Proof.
  intros Hne Hf. unfold filepath.Base.
  destruct (String.eqb_spec f "") as [|_]; [easy|].
  destruct (last_byte f Hne) as (pre & c & Hpc).
  assert (Hc : notSep c = true).
  { unfold sepFree in Hf. rewrite Hpc, str_all_app in Hf.
    apply andb_prop in Hf as [_ Hf]. simpl in Hf. now apply andb_prop in Hf. }
  assert (Hstrip : filepath.stripTrailing f (String.length f) = String.length f).
  { rewrite Hpc. now apply stripTrailing_end. }
  rewrite Hstrip, str_take_all, lastSeparator_sepFree by assumption.
  simpl. destruct f; [easy | reflexivity].
Qed.

Lemma Dir_name (f : string) : sepFree f -> filepath.Dir f = ".".
Proof.
  intros Hf. unfold filepath.Dir. rewrite lastSeparator_sepFree by assumption.
  now destruct f.
Qed.

(** Joined onto [.], a kept element stands alone. *)
Lemma Join_dot (x : string) : real x -> filepath.Join ["."; x] = x.
Proof.
  intros Hx. rewrite Join_two by easy. rewrite Clean_snoc by easy.
  unfold filepath.render. simpl.
  destruct Hx as (Hne & _). now destruct (String.eqb_spec x "").
Qed.

Lemma TrimSuffix_empty (s : string) : strings.TrimSuffix s "" = s.
Proof.
  unfold strings.TrimSuffix, strings.HasSuffix, bytes.hasSuffix. simpl.
  rewrite Nat.sub_0_r, str_drop_length, str_take_all. reflexivity.
Qed.

(** No dot after the last separator, no extension. *)
Lemma Ext_plain_last (a f : string) :
  plain f -> filepath.Ext (a +:+ "/" +:+ f) = "".
Proof.
  intros Hf. unfold filepath.Ext.
  replace (a +:+ "/" +:+ f) with ((a +:+ "/") +:+ f) by now rewrite str_app_assoc.
  rewrite str_length_app, extLoop_skip by assumption.
  rewrite str_length_app. simpl. rewrite Nat.add_1_r. simpl.
  rewrite str_app_assoc. simpl. now rewrite str_get_app_at.
Qed.

Lemma all_and (s : string) :
  sepFree s -> dotFree s -> plain s.
Proof.
  unfold sepFree, dotFree, plain. induction s as [|c s IH]; simpl; [easy|].
  intros [H1 H2]%andb_prop [H3 H4]%andb_prop.
  unfold notSepDot at 1. unfold notSep in H1. unfold notDot in H3.
  rewrite H1, H3. now apply IH.
Qed.

(** The notes path of [a/b.e]. *)
Lemma generateOrgFilePath_file (a b e : string) :
  a <> "" -> sepFree b -> plain e ->
  generateOrgFilePath (a +:+ "/" +:+ b +:+ "." +:+ e) =
  filepath.Join [a; b +:+ "_emacs_org_notes.org"].
Proof.
  intros Ha Hb He.
  pose proof (file_name_sepFree b e Hb He) as Hf.
  pose proof (notes_name_real b Hb) as Hreal.
  unfold generateOrgFilePath.
  rewrite Dir_file, Base_file by (assumption || now destruct b).
  replace (a +:+ "/" +:+ b +:+ "." +:+ e) with ((a +:+ "/" +:+ b) +:+ "." +:+ e)
    by now rewrite !str_app_assoc.
  rewrite Ext_dot by assumption.
  rewrite TrimSuffix_app, Sprintf_notes, Clean_trailing by assumption.
  now apply Join_Clean_dir.
Qed.

(** The notes path of [a/b] when [b] has no dot. *)
Lemma generateOrgFilePath_bare (a b : string) :
  a <> "" -> b <> "" -> plain b ->
  generateOrgFilePath (a +:+ "/" +:+ b) =
  filepath.Join [a; b +:+ "_emacs_org_notes.org"].
Proof.
  intros Ha Hne Hb. pose proof (plain_sepFree _ Hb) as Hs.
  unfold generateOrgFilePath.
  rewrite Dir_file, Base_file, Ext_plain_last by assumption.
  rewrite TrimSuffix_empty, Sprintf_notes, Clean_trailing by assumption.
  apply Join_Clean_dir; [assumption | now apply notes_name_real].
Qed.

End NotesPathMore.

(** X1. The extension of the reference path plays no part in the notes path:
    two transcriptions that differ only in their extension share one notes
    file. *)
Theorem generateOrgFilePath_extension_blind (a b e1 e2 : string) :
  a <> "" -> sepFree b -> plain e1 -> plain e2 ->
  generateOrgFilePath (a +:+ "/" +:+ b +:+ "." +:+ e1) =
  generateOrgFilePath (a +:+ "/" +:+ b +:+ "." +:+ e2).
Proof.
  intros Ha Hb H1 H2. now rewrite !generateOrgFilePath_file.
Qed.

Lemma generateOrgFilePath_extension_blind_witness :
  "notes" <> "" /\ sepFree "talk" /\ plain "txt" /\ plain "md" /\
  generateOrgFilePath "notes/talk.txt" = generateOrgFilePath "notes/talk.md".
Proof.
  split; [easy|]. do 3 (split; [reflexivity|]).
  apply (generateOrgFilePath_extension_blind "notes" "talk" "txt" "md"); easy.
Defined.

(** X2. A reference path without a directory part gives a notes path without
    one: [b.e] maps to [b_emacs_org_notes.org], not to a path under [.]. *)
Theorem generateOrgFilePath_no_directory (b e : string) :
  sepFree b -> plain e ->
  generateOrgFilePath (b +:+ "." +:+ e) = b +:+ "_emacs_org_notes.org".
Proof.
  intros Hb He.
  pose proof (file_name_sepFree b e Hb He) as Hf.
  unfold generateOrgFilePath.
  rewrite Dir_name, Base_name by (assumption || now destruct b).
  rewrite Ext_dot by assumption.
  rewrite TrimSuffix_app, Sprintf_notes.
  apply Join_dot. now apply notes_name_real.
Qed.

Lemma generateOrgFilePath_no_directory_witness :
  sepFree "meeting" /\ plain "txt" /\
  generateOrgFilePath "meeting.txt" = "meeting_emacs_org_notes.org".
Proof.
  do 2 (split; [reflexivity|]).
  apply (generateOrgFilePath_no_directory "meeting" "txt"); reflexivity.
Defined.

(** X3. A reference path whose file name has no dot has no extension to strip:
    the suffix is appended to the whole name. *)
Theorem generateOrgFilePath_no_extension (a b : string) :
  a <> "" -> b <> "" -> plain b ->
  generateOrgFilePath (a +:+ "/" +:+ b) =
  filepath.Join [a; b +:+ "_emacs_org_notes.org"].
Proof. exact (generateOrgFilePath_bare a b). Qed.

Lemma generateOrgFilePath_no_extension_witness :
  "notes" <> "" /\ "README" <> "" /\ plain "README" /\
  generateOrgFilePath "notes/README" = "notes/README_emacs_org_notes.org".
Proof.
  split; [easy|]. split; [easy|]. split; [reflexivity|].
  transitivity (filepath.Join ["notes"; "README" +:+ "_emacs_org_notes.org"]).
  - apply (generateOrgFilePath_no_extension "notes" "README"); easy.
  - vm_compute. reflexivity.
Defined.

(** ** The notes beside the transcription *)

Section BesideFacts.

Lemma last_dot (s : string) :
  dotFree s \/ exists pre e, s = pre +:+ "." +:+ e /\ dotFree e.
Proof.
  induction s as [|c s IH]; [now left|].
  destruct IH as [Hs | (pre & e & -> & He)].
  - destruct (Ascii.eqb_spec c ".") as [->|Hc].
    + right. now exists "", s.
    + left. unfold dotFree in *. simpl. unfold notDot at 1.
      apply Ascii.eqb_neq in Hc. now rewrite Hc.
  - right. now exists (String c pre), e.
Qed.

(** A file name without extension has no dot. *)
Lemma Ext_empty_dotFree (f : string) :
  sepFree f -> filepath.Ext f = "" -> dotFree f.
Proof.
  intros Hf Hext. destruct (last_dot f) as [H | (pre & e & -> & He)]; [exact H|].
  assert (Hp : plain e).
  { apply all_and; [|exact He]. unfold sepFree in *.
    rewrite !str_all_app in Hf. apply andb_prop in Hf as [_ Hf].
    now apply andb_prop in Hf as [_ Hf]. }
  rewrite Ext_dot in Hext by assumption. discriminate.
Qed.

Lemma output_clean : filepath.Clean "output" = "output".
Proof. vm_compute. reflexivity. Qed.

Lemma stamped_name_plain (stem : string) (t : time.Time) :
  plain stem -> plain (stem +:+ "_" +:+ stamp t).
Proof.
  intros Hs. unfold plain in *. rewrite !str_all_app, Hs.
  now rewrite (stamp_plain t).
Qed.

Lemma stamped_name_sepFree (stem : string) (t : time.Time) :
  sepFree stem -> sepFree (stem +:+ "_" +:+ stamp t).
Proof.
  intros Hs. unfold sepFree in *. rewrite !str_all_app, Hs.
  now rewrite (plain_sepFree _ (stamp_plain t)).
Qed.

End BesideFacts.

(** X4. The notes of a fresh transcription lie beside it in [output]: for an
    output name without separator, the notes path derived from the stamped
    transcription path is [output/<stem>_<stamp>_emacs_org_notes.org]; the
    stamp is kept and the extension of the output name is dropped. *)
Theorem notes_beside_transcription (baseFileName : string) (w : World) (s : State) :
  sepFree baseFileName ->
  exists stem path,
    baseFileName = stem +:+ filepath.Ext baseFileName /\
    generateTimestampedFilePath "output" baseFileName w s = (Done path, s) /\
    generateOrgFilePath path =
      "output/" +:+ stem +:+ "_" +:+ stamp (Now w) +:+ "_emacs_org_notes.org".
Proof.
  intros Hbase.
  destruct (generateTimestampedFilePath_output baseFileName w s Hbase)
    as (stem & Hstem & Hrun).
  exists stem. eexists. split; [exact Hstem|]. split; [exact Hrun|].
  assert (Hs : sepFree stem).
  { unfold sepFree in *. rewrite Hstem, str_all_app in Hbase.
    now apply andb_prop in Hbase. }
  destruct (Ext_shape baseFileName) as [Hext | (j & e & H1 & H2 & He)].
  - rewrite Hext, str_app_nil_r in *. subst stem.
    pose proof (Ext_empty_dotFree _ Hbase Hext) as Hdot.
    pose proof (stamped_name_plain _ (Now w) (all_and _ Hbase Hdot)) as Hp.
    change ("output/" +:+ baseFileName +:+ "_" +:+ stamp (Now w))
      with ("output" +:+ "/" +:+ baseFileName +:+ "_" +:+ stamp (Now w)).
    rewrite generateOrgFilePath_bare; [| easy | | exact Hp].
    + rewrite Join_literal; [| apply output_clean | easy | easy |].
      * now rewrite !str_app_assoc.
      * apply notes_name_real. now apply plain_sepFree.
    + intros H. apply (f_equal String.length) in H.
      rewrite str_length_app in H. simpl in H. lia.
  - rewrite H1, H2.
    pose proof (stamped_name_sepFree stem (Now w) Hs) as Hn.
    replace ("output/" +:+ stem +:+ "_" +:+ stamp (Now w) +:+ "." +:+ e)
      with ("output" +:+ "/" +:+ (stem +:+ "_" +:+ stamp (Now w)) +:+ "." +:+ e)
      by (simpl; now rewrite !str_app_assoc).
    rewrite generateOrgFilePath_file; [| easy | exact Hn | exact He].
    rewrite Join_literal; [| apply output_clean | easy | easy |].
    + simpl. now rewrite !str_app_assoc.
    + now apply notes_name_real.
Qed.

Lemma notes_beside_transcription_witness :
  sepFree "talk.final.txt" /\
  generateOrgFilePath "output/talk.final_20240131_230509.txt" =
    "output/talk.final_20240131_230509_emacs_org_notes.org".
Proof.
  split; [reflexivity|].
  destruct (notes_beside_transcription "talk.final.txt" notesWorld notesState eq_refl)
    as (stem & path & Hstem & Hrun & Hnotes).
  assert (Hs : stem = "talk.final")
    by (apply (str_app_inv_tail _ _ ".txt"); symmetry; exact Hstem).
  assert (Hp : path = "output/talk.final_20240131_230509.txt").
  { assert (H : generateTimestampedFilePath "output" "talk.final.txt" notesWorld notesState
                = (Done "output/talk.final_20240131_230509.txt", notesState))
      by (vm_compute; reflexivity).
    rewrite H in Hrun. now injection Hrun. }
  rewrite Hp, Hs in Hnotes. rewrite Hnotes. vm_compute. reflexivity.
Defined.

(** ** Stamps tell instants apart *)

Section StampFacts.

Lemma str_app_inv_length (a1 a2 b1 b2 : string) :
  String.length a1 = String.length a2 ->
  a1 +:+ b1 = a2 +:+ b2 -> a1 = a2 /\ b1 = b2.
Proof.
  revert a2; induction a1 as [|x a1 IH]; intros [|y a2] Hlen H;
    simpl in *; try discriminate.
  - now split.
  - injection H as -> H. injection Hlen as Hlen.
    destruct (IH a2 Hlen H) as [-> ->]. now split.
Qed.

(** Two calendar instants with the same stamp are the same instant. *)
Lemma stamp_inj (t1 t2 : time.Time) :
  time.civil t1 -> time.civil t2 -> stamp t1 = stamp t2 -> t1 = t2.
Proof.
  intros (HY1 & HM1 & HD1 & Hh1 & Hm1 & Hs1) (HY2 & HM2 & HD2 & Hh2 & Hm2 & Hs2).
  rewrite !stamp_unfold. intros H.
  apply str_app_inv_length in H as [HY H];
    [| rewrite !appendInt_width4 by assumption; reflexivity].
  apply str_app_inv_length in H as [HM H];
    [| rewrite !appendInt_width2 by lia; reflexivity].
  apply str_app_inv_length in H as [HD H];
    [| rewrite !appendInt_width2 by lia; reflexivity].
  apply (str_app_inv_length "_" "_") in H as [_ H]; [|reflexivity].
  apply str_app_inv_length in H as [Hh H];
    [| rewrite !appendInt_width2 by lia; reflexivity].
  apply str_app_inv_length in H as [Hm Hs];
    [| rewrite !appendInt_width2 by lia; reflexivity].
  apply (f_equal digitsValue) in HY, HM, HD, Hh, Hm, Hs.
  rewrite !digitsValue_appendInt in HY, HM, HD, Hh, Hm, Hs.
  destruct t1, t2. simpl in *. now subst.
Qed.

End StampFacts.

(** X5. Two runs at different calendar instants never share a transcription
    file: for an output name without separator, equal stamped paths in
    [output] come from equal instants (to the second). *)
Theorem timestamped_paths_distinct
    (baseFileName : string) (w1 w2 : World) (s1 s2 : State) :
  sepFree baseFileName ->
  time.civil (Now w1) -> time.civil (Now w2) ->
  (generateTimestampedFilePath "output" baseFileName w1 s1).1 =
  (generateTimestampedFilePath "output" baseFileName w2 s2).1 ->
  Now w1 = Now w2.
Proof.
  intros Hbase Hc1 Hc2.
  destruct (generateTimestampedFilePath_output baseFileName w1 s1 Hbase)
    as (stem1 & Hstem1 & ->).
  destruct (generateTimestampedFilePath_output baseFileName w2 s2 Hbase)
    as (stem2 & Hstem2 & ->).
  assert (Hs : stem1 = stem2).
  { apply (str_app_inv_tail _ _ (filepath.Ext baseFileName)). congruence. }
  subst stem2. simpl. intros [= H].
  apply str_app_inv_head in H. injection H as H.
  apply str_app_inv_tail in H. now apply stamp_inj.
Qed.

Lemma timestamped_paths_distinct_witness :
  sepFree "talk.txt" /\ time.civil (Now notesWorld) /\ time.civil (Now laterWorld) /\
  Now notesWorld <> Now laterWorld /\
  (generateTimestampedFilePath "output" "talk.txt" notesWorld notesState).1 <>
  (generateTimestampedFilePath "output" "talk.txt" laterWorld notesState).1.
Proof.
  assert (H1 : time.civil (Now notesWorld)) by (vm_compute; repeat split; lia).
  assert (H2 : time.civil (Now laterWorld)) by (vm_compute; repeat split; lia).
  assert (Hne : Now notesWorld <> Now laterWorld) by discriminate.
  split; [reflexivity|]. split; [exact H1|]. split; [exact H2|]. split; [exact Hne|].
  intros H. apply Hne.
  exact (timestamped_paths_distinct "talk.txt" notesWorld laterWorld notesState notesState
           eq_refl H1 H2 H).
Defined.

(** ** The environment *)

(** X6. [getEnv] never hands out an empty value: it returns the value of a
    variable that is set and not empty, leaving the state as it was, and is
    fatal both for a variable that is not set and for one that is set to
    the empty string. *)
Theorem getEnv_nonempty (key : string) (w : World) (s : State) :
  (forall v s', getEnv key w s = (Done v, s') ->
                v <> "" /\ s' = s /\ env s !! key = Some v) /\
  (forall v, env s !! key = Some v -> v <> "" -> getEnv key w s = (Done v, s)) /\
  (env s !! key = None \/ env s !! key = Some "" ->
   (getEnv key w s).1 = Fatal /\
   events (getEnv key w s).2 =
     events s ++ [EvLog (key +:+ " not set in environment")]).
Proof.
  rewrite getEnv_run. split; [|split].
  - intros v s'. destruct (env s !! key) as [x|] eqn:Hk; simpl.
    + destruct (String.eqb_spec x "") as [->|Hx]; [discriminate|].
      intros [= <- <-]. now repeat split.
    + discriminate.
  - intros v Hk Hv. rewrite Hk. simpl. apply String.eqb_neq in Hv. now rewrite Hv.
  - intros [Hk | Hk]; rewrite Hk; simpl; now split.
Qed.

(** X7. [loadEnv] never stops the run and touches no file and no directory.
    A variable that the environment already has keeps its value, also when
    [.env] sets it (and also when the value is empty); a variable that the
    environment does not have gets the value [.env] gives it. *)
Theorem loadEnv_keeps_environment (w : World) (s : State) :
  exists s',
    loadEnv w s = (Done tt, s') /\
    files s' = files s /\ dirs s' = dirs s /\
    (forall k v, env s !! k = Some v -> env s' !! k = Some v) /\
    (forall content vars k,
       files s !! ".env" = Some content -> dotenvParse w content = inr vars ->
       env s !! k = None -> env s' !! k = vars !! k) /\
    (files s !! ".env" = None -> env s' = env s).
Proof.
  exists (afterLoadEnv w s). split; [apply loadEnv_run|].
  unfold afterLoadEnv, envAfterLoad. simpl.
  split; [reflexivity|]. split; [reflexivity|]. split; [|split].
  - intros k v Hk. destruct (files s !! ".env") as [content|]; [|exact Hk].
    destruct (dotenvParse w content) as [err|vars]; [exact Hk|].
    now apply lookup_union_Some_l.
  - intros content vars k Hf Hp Hk. rewrite Hf, Hp.
    now apply lookup_union_r.
  - now intros ->.
Qed.

(** ** The output directory *)

(** X8. [createOutputDir] is fatal only when [output] does not exist and cannot
    be created.  When it returns, it returns [output], the path exists (as
    a directory, or as a file that was there before: the kind is not
    looked at), no file has changed, and a second call only looks the path
    up again. *)
Theorem createOutputDir_ensures (w : World) (s : State) :
  ((createOutputDir w s).1 = Fatal <->
   ("output" ∉ dirs s) /\ files s !! "output" = None /\ mkdirError w "output" <> None) /\
  (forall d s',
     createOutputDir w s = (Done d, s') ->
     d = "output" /\
     ("output" ∈ dirs s' \/ files s' !! "output" <> None) /\
     files s' = files s /\
     createOutputDir w s' =
       (Done "output",
        mkState (env s') (files s') (dirs s') (events s' ++ [EvStat "output"]))).
Proof.
  unfold createOutputDir. run_ops. simpl.
  destruct (decide ("output" ∈ dirs s)) as [Hd|Hd].
  - rewrite (bool_decide_eq_false_2 _ (fun H => H Hd)). simpl. split.
    + split; [discriminate | now intros [H _]].
    + intros d s' [= <- <-]. simpl.
      rewrite (bool_decide_eq_false_2 _ (fun H => H Hd)). simpl.
      repeat split; now left.
  - rewrite (bool_decide_eq_true_2 _ Hd). simpl.
    destruct (files s !! "output") as [c|] eqn:Hf.
    + rewrite bool_decide_eq_false_2 by easy. simpl. split.
      * split; [discriminate | now intros (_ & H & _)].
      * intros d s' [= <- <-]. simpl. rewrite Hf.
        rewrite (bool_decide_eq_true_2 _ Hd), bool_decide_eq_false_2 by easy.
        simpl. repeat split. now right.
    + rewrite bool_decide_eq_true_2 by reflexivity. simpl.
      destruct (mkdirError w "output") as [err|] eqn:Hm; simpl.
      * split; [now split | discriminate].
      * split; [split; [discriminate | now intros (_ & _ & H)]|].
        intros d s' [= <- <-]. simpl.
        rewrite bool_decide_eq_false_2 by set_solver. simpl.
        repeat split. left. set_solver.
Qed.

(** ** The transcription request *)

Section RequestFacts.

Lemma Sprintf_bearer (apiKey : string) :
  fmt.Sprintf "Bearer %s" [apiKey] = "Bearer " +:+ apiKey.
Proof. cbn. now rewrite str_app_nil_r. Qed.

End RequestFacts.

(** X9. [transcribeAudio] posts the upload once, whatever comes back, and does
    nothing else to the world: no file is read or written.  It is fatal
    exactly when the endpoint gives nothing to decode; every status up to
    399 counts as a success and has its body decoded, and the text returned
    is the [Text] field. *)
Theorem transcribeAudio_once (filePath audioBytes apiKey : string) (w : World) (s : State) :
  let req := whisperRequest filePath audioBytes apiKey in
  let run := transcribeAudio filePath audioBytes apiKey w s in
  (exists evs,
     events run.2 = events s ++ evs /\ posts evs = [req] /\
     forallb (fun e => negb (isFileOp e)) evs = true) /\
  files run.2 = files s /\ dirs run.2 = dirs s /\ env run.2 = env s /\
  (transcriptionFails w req <-> run.1 = Fatal) /\
  (forall code body resp,
     Post w req = Reply code body -> code <= 399 ->
     unmarshalTranscription w body = inr resp ->
     run.1 = Done (Text resp)).
Proof.
  intros req run. subst req run.
  unfold transcribeAudio, transcriptionFails, IsError. run_ops. simpl.
  destruct (Post w (whisperRequest filePath audioBytes apiKey)) as [err|code body];
    simpl.
  - split; [eexists; split; [trace_done | easy]|].
    do 3 (split; [reflexivity|]). split; [easy | discriminate].
  - destruct (Nat.ltb_spec 399 code) as [Hc|Hc]; simpl.
    + split; [eexists; split; [trace_done | easy]|].
      do 3 (split; [reflexivity|]). split; [split; [easy | now left]|].
      intros c b r [= <- <-] Hle. lia.
    + destruct (unmarshalTranscription w body) as [err|resp] eqn:Hj; simpl.
      * split; [eexists; split; [trace_done | easy]|].
        do 3 (split; [reflexivity|]). split; [split; [easy | right; eauto]|].
        intros c b r [= <- <-] _. rewrite Hj. discriminate.
      * split; [eexists; split; [trace_done | easy]|].
        do 3 (split; [reflexivity|]). split.
        -- split; [intros [H | [e H]]; discriminate | discriminate].
        -- intros c b r [= <- <-] _. rewrite Hj. now intros [= <-].
Qed.

(** X10. The upload names the audio file by the last element of its path: the
    directories of the path are not sent. *)
Theorem whisperRequest_file_name (dir name audioBytes apiKey : string) :
  name <> "" -> sepFree name ->
  whisperRequest (dir +:+ "/" +:+ name) audioBytes apiKey =
  mkRequest whisperURL [("Authorization", "Bearer " +:+ apiKey)]
    (Multipart "file" name audioBytes {["model" := "whisper-1"]}).
Proof.
  intros Hne Hs. unfold whisperRequest.
  now rewrite Base_file, Sprintf_bearer.
Qed.

Lemma whisperRequest_file_name_witness :
  "talk.mp3" <> "" /\ sepFree "talk.mp3" /\
  Body (whisperRequest "/home/ann/recordings/talk.mp3" "RIFF" "sk-test") =
  Multipart "file" "talk.mp3" "RIFF" {["model" := "whisper-1"]}.
Proof.
  split; [easy|]. split; [reflexivity|].
  pose proof (whisperRequest_file_name "/home/ann/recordings" "talk.mp3" "RIFF" "sk-test"
                ltac:(discriminate) eq_refl) as H.
  exact (f_equal Body H).
Defined.

(** ** The completion stage *)

(** X12. [createEmacsOrgNotes] posts the chat request once in every run.  It
    writes at most one file: the content of the first choice, unchanged, at
    the notes path of the reference path, and only when the reply is no
    error and decodes to at least one choice; the choices after the first
    are not looked at. *)
Theorem createEmacsOrgNotes_writes
    (transcriptionText apiKey baseFilePath : string) (w : World) (s : State) :
  let run := createEmacsOrgNotes transcriptionText apiKey baseFilePath w s in
  exists evs,
    events run.2 = events s ++ evs /\
    posts evs = [chatRequest transcriptionText apiKey] /\
    ((writtenFiles evs = [] /\ files run.2 = files s) \/
     exists code body choice others,
       Post w (chatRequest transcriptionText apiKey) = Reply code body /\
       IsError code = false /\
       unmarshalOpenAI w body = inr {| Choices := choice :: others |} /\
       writtenFiles evs =
         [(generateOrgFilePath baseFilePath, Content (Message choice))]).
Proof.
  intros run. subst run.
  unfold createEmacsOrgNotes, writeToFile, firstChoice. run_ops. simpl.
  destruct (Post w (chatRequest transcriptionText apiKey)) as [err|code body] eqn:Hp;
    simpl; [eexists; split; [trace_done | split; [reflexivity | now left]]|].
  destruct (IsError code) eqn:Hc; simpl;
    [eexists; split; [trace_done | split; [reflexivity | now left]]|].
  destruct (unmarshalOpenAI w body) as [err|[choices]] eqn:Hj; simpl;
    [eexists; split; [trace_done | split; [reflexivity | now left]]|].
  destruct choices as [|choice others]; simpl;
    [eexists; split; [trace_done | split; [reflexivity | now left]]|].
  destruct (writeError w (generateOrgFilePath baseFilePath)); simpl;
    (eexists; split; [trace_done | split; [reflexivity|]]; right;
     exists code, body, choice, others; now repeat split).
Qed.

(** X13. When the reply is no error and decodes to at least one choice, and the
    write is not refused, [createEmacsOrgNotes] ends normally and the notes
    file holds exactly the content of the first choice; every other file is
    left as it was. *)
Theorem createEmacsOrgNotes_success
    (transcriptionText apiKey baseFilePath : string) (w : World) (s : State)
    (code : nat) (body : string) (choice : Choice) (others : list Choice) :
  Post w (chatRequest transcriptionText apiKey) = Reply code body ->
  IsError code = false ->
  unmarshalOpenAI w body = inr {| Choices := choice :: others |} ->
  writeError w (generateOrgFilePath baseFilePath) = None ->
  let run := createEmacsOrgNotes transcriptionText apiKey baseFilePath w s in
  run.1 = Done tt /\
  files run.2 =
    <[generateOrgFilePath baseFilePath := Content (Message choice)]> (files s) /\
  dirs run.2 = dirs s.
Proof.
  intros Hp Hc Hj Hw run. subst run.
  unfold createEmacsOrgNotes, writeToFile, firstChoice. run_ops. simpl.
  rewrite Hp. simpl. rewrite Hc. simpl. rewrite Hj. simpl. rewrite Hw. simpl.
  now repeat split.
Qed.

Lemma createEmacsOrgNotes_success_witness :
  Post twoChoicesWorld (chatRequest "meeting notes" "sk-test") = Reply 200 "reply" /\
  IsError 200 = false /\
  writeError twoChoicesWorld (generateOrgFilePath "meeting.txt") = None /\
  files (createEmacsOrgNotes "meeting notes" "sk-test" "meeting.txt"
           twoChoicesWorld notesState).2 !! "meeting_emacs_org_notes.org" =
    Some "#+title: First".
Proof.
  do 3 (split; [reflexivity|]).
  destruct (createEmacsOrgNotes_success "meeting notes" "sk-test" "meeting.txt"
              twoChoicesWorld notesState 200 "reply"
              {| Message := {| Content := "#+title: First" |} |}
              [ {| Message := {| Content := "#+title: Second" |} |} ])
    as (_ & H & _); [reflexivity .. |].
  rewrite H. apply lookup_insert_eq.
Defined.

(** ** The transcription stage *)

(** X14. An audio file that cannot be read stops the run before anything is
    sent and before the output directory is looked up or created. *)
Theorem processTranscription_missing_audio (config : Config) (w : World) (s : State) :
  AudioFilePath config <> "" ->
  files s !! AudioFilePath config = None ->
  let run := processTranscription config w s in
  run.1 = Fatal /\
  (exists evs,
     events run.2 = events s ++ evs /\ posts evs = [] /\
     forallb (fun e => negb (isDirOrWriteOp e)) evs = true) /\
  files run.2 = files s /\ dirs run.2 = dirs s.
Proof.
  intros Ha Hf run. subst run. apply String.eqb_neq in Ha.
  unfold processTranscription. rewrite Ha. simpl. run_ops. simpl.
  rewrite Hf. simpl.
  split; [reflexivity|]. split; [|easy].
  eexists. split; [trace_done | easy].
Qed.

Lemma processTranscription_missing_audio_witness :
  AudioFilePath (mkConfig "lost.mp3" "" "" "" "sk-test") <> "" /\
  files notesState !! "lost.mp3" = None /\
  (processTranscription (mkConfig "lost.mp3" "" "" "" "sk-test")
     notesWorld notesState).1 = Fatal.
Proof.
  split; [easy|]. split; [reflexivity|].
  apply (processTranscription_missing_audio (mkConfig "lost.mp3" "" "" "" "sk-test")
           notesWorld notesState); [easy | reflexivity].
Defined.

(** X15. A transcription that fails leaves the file system as it was: when the
    endpoint gives nothing to decode the run stops after its one request;
    the output directory is not looked up or created and nothing is
    written. *)
Theorem processTranscription_failed_transcription
    (config : Config) (w : World) (s : State) (audioBytes : string) :
  AudioFilePath config <> "" ->
  files s !! AudioFilePath config = Some audioBytes ->
  transcriptionFails w
    (whisperRequest (AudioFilePath config) audioBytes (OpenAIAPIKey config)) ->
  let run := processTranscription config w s in
  run.1 = Fatal /\
  (exists evs,
     events run.2 = events s ++ evs /\
     posts evs =
       [whisperRequest (AudioFilePath config) audioBytes (OpenAIAPIKey config)] /\
     forallb (fun e => negb (isDirOrWriteOp e)) evs = true) /\
  files run.2 = files s /\ dirs run.2 = dirs s.
Proof.
  intros Ha Hf Hfail run. subst run. apply String.eqb_neq in Ha.
  unfold transcriptionFails in Hfail.
  unfold processTranscription, transcribeAudio. rewrite Ha. simpl. run_ops. simpl.
  rewrite Hf. simpl.
  destruct (Post w _) as [err|code body]; simpl.
  - split; [reflexivity|]. split; [|easy]. eexists. split; [trace_done | easy].
  - destruct (IsError code); simpl.
    + split; [reflexivity|]. split; [|easy]. eexists. split; [trace_done | easy].
    + destruct Hfail as [H | [err H]]; [discriminate|]. rewrite H. simpl.
      split; [reflexivity|]. split; [|easy]. eexists. split; [trace_done | easy].
Qed.

Lemma processTranscription_failed_transcription_witness :
  AudioFilePath audioConfig <> "" /\
  files notesState !! AudioFilePath audioConfig = Some "RIFF" /\
  transcriptionFails unavailableWorld
    (whisperRequest (AudioFilePath audioConfig) "RIFF" (OpenAIAPIKey audioConfig)) /\
  (processTranscription audioConfig unavailableWorld notesState).1 = Fatal /\
  dirs (processTranscription audioConfig unavailableWorld notesState).2 = dirs notesState.
Proof.
  assert (Hfail : transcriptionFails unavailableWorld
            (whisperRequest (AudioFilePath audioConfig) "RIFF" (OpenAIAPIKey audioConfig)))
    by (left; reflexivity).
  split; [easy|]. split; [reflexivity|]. split; [exact Hfail|].
  destruct (processTranscription_failed_transcription audioConfig unavailableWorld
              notesState "RIFF") as (H1 & _ & _ & H2); [easy | reflexivity | exact Hfail |].
  now split.
Defined.

(** X16. Whenever the transcription stage returns, the reference path it
    returns names a file that holds exactly the text it returns: the file
    it has just written, or the transcription file it has read. *)
Theorem processTranscription_reference (config : Config) (w : World) (s : State)
    (transcriptionText outputFilePath : string) (s' : State) :
  processTranscription config w s = (Done (transcriptionText, outputFilePath), s') ->
  AudioFilePath config <> "" \/ TranscriptionFilePath config <> "" ->
  files s' !! outputFilePath = Some transcriptionText.
Proof.
  unfold processTranscription, transcribeAudio, createOutputDir, writeToFile,
    readExistingTranscription.
  destruct (String.eqb_spec (AudioFilePath config) "") as [Ha|Ha]; simpl.
  - destruct (String.eqb_spec (TranscriptionFilePath config) "") as [Ht|Ht]; simpl.
    + intros _ [H|H]; contradiction.
    + run_ops. simpl.
      destruct (files s !! TranscriptionFilePath config) eqn:Hf; simpl; [|discriminate].
      now intros [= <- <- <-] _.
  - run_ops. simpl. intros Hrun _. revert Hrun.
    repeat (rewrite ?generateTimestampedFilePath_pure; simpl; try case_run);
      try discriminate; intros [= <- <- <-]; simpl; apply lookup_insert_eq.
Qed.

Lemma processTranscription_reference_witness :
  exists s',
    processTranscription audioConfig notesWorld notesState =
      (Done ("hello world", "output/transcription_20240131_230509.txt"), s') /\
    (AudioFilePath audioConfig <> "" \/ TranscriptionFilePath audioConfig <> "") /\
    files s' !! "output/transcription_20240131_230509.txt" = Some "hello world".
Proof.
  assert (Ha : AudioFilePath audioConfig <> "") by discriminate.
  remember (processTranscription audioConfig notesWorld notesState) as r eqn:Hr.
  assert (H1 : r.1 = Done ("hello world", "output/transcription_20240131_230509.txt"))
    by (subst r; vm_compute; reflexivity).
  destruct r as [o s']. simpl in H1. subst o. symmetry in Hr.
  exists s'. split; [reflexivity|]. split; [left; exact Ha|].
  exact (processTranscription_reference audioConfig notesWorld notesState _ _ _
           Hr (or_introl Ha)).
Defined.

(** ** The requests of a run *)

Section RequestsOfMain.

Lemma posts_app (l1 l2 : list Event) : posts (l1 ++ l2) = posts l1 ++ posts l2.
Proof.
  induction l1 as [|e l1 IH]; [reflexivity|].
  destruct e; simpl; now rewrite ?IH.
Qed.

Lemma quiet_posts (evs : list Event) :
  forallb (fun e => negb (isPost e) && negb (isFileOp e)) evs = true ->
  posts evs = [].
Proof.
  induction evs as [|e evs IH]; [reflexivity|]. simpl.
  intros [He Hevs]%andb_prop. destruct e; simpl in *; auto; discriminate.
Qed.

Lemma processTranscription_posts (config : Config) (w : World) (s : State) :
  exists evs,
    events (processTranscription config w s).2 = events s ++ evs /\
    (posts evs = [] \/
     exists audioBytes,
       posts evs =
         [whisperRequest (AudioFilePath config) audioBytes (OpenAIAPIKey config)]).
Proof.
  unfold processTranscription, transcribeAudio, createOutputDir, writeToFile,
    readExistingTranscription.
  destruct (String.eqb (AudioFilePath config) ""); simpl.
  - destruct (String.eqb (TranscriptionFilePath config) ""); simpl.
    + exists []. rewrite app_nil_r. now split; [|left].
    + run_ops. simpl. repeat case_run;
        (eexists; split; [trace_done | now left]).
  - run_ops. simpl.
    repeat (rewrite ?generateTimestampedFilePath_pure; simpl; try case_run);
      (eexists; split; [trace_done|]; simpl; (now left) || (right; eauto)).
Qed.

Lemma createEmacsOrgNotes_posts
    (transcriptionText apiKey baseFilePath : string) (w : World) (s : State) :
  exists evs,
    events (createEmacsOrgNotes transcriptionText apiKey baseFilePath w s).2 =
      events s ++ evs /\
    posts evs = [chatRequest transcriptionText apiKey].
Proof.
  unfold createEmacsOrgNotes, writeToFile, firstChoice. run_ops. simpl.
  repeat case_run; (eexists; split; [trace_done | reflexivity]).
Qed.

Lemma early_posts (w : World) (s : State) :
  posts (EvLog "Loading environment variables..." :: EvReadFile ".env" ::
           dotenvNotice w s) = [].
Proof. simpl. apply quiet_posts, dotenvNotice_quiet. Qed.

End RequestsOfMain.

(** X17. A run of [main] posts at most twice: possibly the upload, then
    possibly the chat request, in this order.  Every request carries the
    credential found in the environment as its bearer, and the credential
    is not empty: nothing is ever sent without one. *)
Theorem main_requests (config : Config) (w : World) (s : State) :
  exists evs,
    events (main config w s).2 = events s ++ evs /\
    Forall (fun req => bearer req = Some ("Bearer " +:+ credential w s)) (posts evs) /\
    (posts evs <> [] -> credential w s <> "") /\
    (map URL (posts evs) = [] \/ map URL (posts evs) = [whisperURL] \/
     map URL (posts evs) = [chatURL] \/ map URL (posts evs) = [whisperURL; chatURL]).
Proof.
  pose proof (early_posts w s) as Hearly.
  assert (Hafter : events (afterLoadEnv w s) =
                   events s ++ EvLog "Loading environment variables..." ::
                     EvReadFile ".env" :: dotenvNotice w s) by reflexivity.
  remember (EvLog "Loading environment variables..." :: EvReadFile ".env" ::
              dotenvNotice w s) as pre eqn:Hpre. clear Hpre.
  rewrite main_run.
  destruct (String.eqb_spec (credential w s) "") as [Hc|Hc].
  { exists (pre ++ [EvLog "OPENAI_API_KEY not set in environment"]).
    unfold logged. cbn [snd events]. rewrite Hafter, <- app_assoc.
    split; [reflexivity|]. rewrite posts_app, Hearly. simpl.
    split; [constructor|]. split; [easy | now left]. }
  destruct (String.eqb (AudioFilePath config) "" &&
            String.eqb (TranscriptionFilePath config) "").
  { exists (pre ++ [EvLog "The -file or -transcription argument is required."]).
    unfold logged. cbn [snd events]. rewrite Hafter, <- app_assoc.
    split; [reflexivity|]. rewrite posts_app, Hearly. simpl.
    split; [constructor|]. split; [easy | now left]. }
  destruct (processTranscription_posts (withCredential config (credential w s)) w
              (afterLoadEnv w s)) as (evs1 & Hev1 & Hp1).
  cbn [withCredential AudioFilePath OpenAIAPIKey] in Hp1.
  rewrite Hafter in Hev1.
  assert (Hb1 : Forall (fun req => bearer req = Some ("Bearer " +:+ credential w s))
                  (posts evs1)).
  { destruct Hp1 as [-> | [bytes ->]]; [constructor|].
    constructor; [|constructor]. unfold bearer, whisperRequest. simpl.
    now rewrite str_app_nil_r. }
  assert (Hu1 : map URL (posts evs1) = [] \/ map URL (posts evs1) = [whisperURL]).
  { destruct Hp1 as [-> | [bytes ->]]; [now left | now right]. }
  destruct (processTranscription _ w (afterLoadEnv w s)) as [[[text path]| |msg] s1];
    cbn [snd] in Hev1.
  - destruct (String.eqb (PostProcessCmd config) "create_emacs_org_notes").
    + destruct (createEmacsOrgNotes_posts text (credential w s) path w s1)
        as (evs2 & Hev2 & Hp2).
      exists (pre ++ evs1 ++ evs2).
      rewrite Hev2, Hev1. split; [now rewrite <- !app_assoc|].
      rewrite !posts_app, Hearly, Hp2. cbn [app].
      split; [|split; [easy|]].
      * apply Forall_app. split; [exact Hb1|].
        constructor; [|constructor]. unfold bearer, chatRequest. simpl.
        now rewrite str_app_nil_r.
      * rewrite map_app. destruct Hu1 as [-> | ->]; simpl; auto.
    + exists (pre ++ evs1). cbn [snd]. rewrite Hev1.
      split; [now rewrite <- !app_assoc|].
      rewrite posts_app, Hearly. cbn [app].
      split; [exact Hb1|]. split; [easy|]. destruct Hu1 as [-> | ->]; auto.
  - exists (pre ++ evs1). cbn [snd]. rewrite Hev1.
    split; [now rewrite <- !app_assoc|].
    rewrite posts_app, Hearly. cbn [app].
    split; [exact Hb1|]. split; [easy|]. destruct Hu1 as [-> | ->]; auto.
  - exists (pre ++ evs1). cbn [snd]. rewrite Hev1.
    split; [now rewrite <- !app_assoc|].
    rewrite posts_app, Hearly. cbn [app].
    split; [exact Hb1|]. split; [easy|]. destruct Hu1 as [-> | ->]; auto.
Qed.

(** ** Whole runs *)

(** X18. From an existing transcription to its notes.  With the credential
    there, a readable transcription file, the directive set, a reply that
    is no error and decodes to at least one choice, and a write that is not
    refused, [main] ends normally: the only request is the chat request
    built from the content of the file, and the only change to the file
    system is the notes file, which holds the content of the first
    choice. *)
Theorem main_notes_from_file
    (config : Config) (w : World) (s : State)
    (content body : string) (code : nat) (choice : Choice) (others : list Choice) :
  credential w s <> "" ->
  AudioFilePath config = "" ->
  TranscriptionFilePath config <> "" ->
  PostProcessCmd config = "create_emacs_org_notes" ->
  files s !! TranscriptionFilePath config = Some content ->
  Post w (chatRequest content (credential w s)) = Reply code body ->
  IsError code = false ->
  unmarshalOpenAI w body = inr {| Choices := choice :: others |} ->
  writeError w (generateOrgFilePath (TranscriptionFilePath config)) = None ->
  (main config w s).1 = Done tt /\
  files (main config w s).2 =
    <[generateOrgFilePath (TranscriptionFilePath config) := Content (Message choice)]>
      (files s) /\
  dirs (main config w s).2 = dirs s /\
  exists evs,
    events (main config w s).2 = events s ++ evs /\
    posts evs = [chatRequest content (credential w s)].
Proof.
  intros Hc Ha Ht Hd Hf Hp He Hj Hw.
  pose proof (early_posts w s) as Hearly.
  rewrite main_run. apply String.eqb_neq in Hc, Ht. rewrite Hc, Ha, Ht, Hd. simpl.
  unfold processTranscription, readExistingTranscription.
  cbn [withCredential AudioFilePath TranscriptionFilePath]. rewrite Ha, Ht. simpl.
  run_ops. simpl. rewrite Hf. simpl.
  unfold createEmacsOrgNotes, writeToFile, firstChoice. run_ops. simpl.
  rewrite Hp. simpl. rewrite He. simpl. rewrite Hj. simpl. rewrite Hw. simpl.
  split; [reflexivity|]. split; [reflexivity|]. split; [reflexivity|].
  eexists. split; [trace_done|].
  simpl. rewrite ?posts_app. simpl.
  rewrite (quiet_posts _ (dotenvNotice_quiet w s)). reflexivity.
Qed.

Lemma main_notes_from_file_witness :
  credential notesWorld notesState <> "" /\
  files notesState !! TranscriptionFilePath notesConfig = Some "meeting notes" /\
  (main notesConfig notesWorld notesState).1 = Done tt /\
  files (main notesConfig notesWorld notesState).2 !! "meeting_emacs_org_notes.org" =
    Some "#+title: Test".
Proof.
  assert (Hc : credential notesWorld notesState <> "") by discriminate.
  assert (Ht : TranscriptionFilePath notesConfig <> "") by discriminate.
  split; [exact Hc|]. split; [reflexivity|].
  destruct (main_notes_from_file notesConfig notesWorld notesState
              "meeting notes" "reply" 200
              {| Message := {| Content := "#+title: Test" |} |} [])
    as (H1 & H2 & _); [exact Hc | reflexivity | exact Ht | reflexivity ..|].
  split; [exact H1|]. rewrite H2. apply lookup_insert_eq.
Defined.

(** X19. From an audio file to its notes.  When both stages succeed, the text
    that is summarised is the text that was transcribed: the run posts the
    upload and then the chat request built from the [Text] field of the
    first reply; the transcription is written to the stamped path and the
    content of the first choice to the notes path derived from it, and no
    other file changes. *)
Theorem main_audio_to_notes
    (config : Config) (w : World) (s : State)
    (audioBytes body1 body2 : string) (code1 code2 : nat)
    (resp : TranscriptionResponse) (choice : Choice) (others : list Choice) :
  let key := credential w s in
  let path := timestampedPath "output" (outputName config) (Now w) in
  let notes := generateOrgFilePath path in
  key <> "" ->
  AudioFilePath config <> "" ->
  PostProcessCmd config = "create_emacs_org_notes" ->
  files s !! AudioFilePath config = Some audioBytes ->
  Post w (whisperRequest (AudioFilePath config) audioBytes key) = Reply code1 body1 ->
  IsError code1 = false ->
  unmarshalTranscription w body1 = inr resp ->
  mkdirError w "output" = None ->
  writeError w path = None ->
  Post w (chatRequest (Text resp) key) = Reply code2 body2 ->
  IsError code2 = false ->
  unmarshalOpenAI w body2 = inr {| Choices := choice :: others |} ->
  writeError w notes = None ->
  (main config w s).1 = Done tt /\
  files (main config w s).2 =
    <[notes := Content (Message choice)]> (<[path := Text resp]> (files s)) /\
  exists evs,
    events (main config w s).2 = events s ++ evs /\
    posts evs =
      [whisperRequest (AudioFilePath config) audioBytes key;
       chatRequest (Text resp) key].
Proof.
  intros key path notes Hc Ha Hd Hf Hp1 He1 Hj1 Hm Hw1 Hp2 He2 Hj2 Hw2.
  subst key path notes.
  rewrite main_run. apply String.eqb_neq in Hc, Ha. rewrite Hc, Ha, Hd. simpl.
  unfold processTranscription, transcribeAudio, createOutputDir, writeToFile.
  cbn [withCredential AudioFilePath TranscriptionFilePath OutputFileName OpenAIAPIKey].
  fold (outputName config). rewrite Ha. simpl. run_ops. simpl.
  rewrite Hf. simpl. rewrite Hp1. simpl. rewrite He1. simpl. rewrite Hj1. simpl.
  unfold createEmacsOrgNotes, writeToFile, firstChoice. run_ops.
  destruct (bool_decide ("output" ∉ dirs s) && bool_decide (files s !! "output" = None));
    simpl; rewrite ?Hm; simpl; rewrite generateTimestampedFilePath_pure; simpl;
    rewrite Hw1; simpl; rewrite Hp2; simpl; rewrite He2; simpl; rewrite Hj2; simpl;
    rewrite Hw2; simpl.
  all: split; [reflexivity|]; split; [reflexivity|].
  all: eexists; split; [trace_done|].
  all: simpl; rewrite ?posts_app; simpl;
    rewrite (quiet_posts _ (dotenvNotice_quiet w s)); reflexivity.
Qed.

Lemma main_audio_to_notes_witness :
  credential notesWorld notesState <> "" /\
  AudioFilePath pipelineConfig <> "" /\
  (main pipelineConfig notesWorld notesState).1 = Done tt /\
  files (main pipelineConfig notesWorld notesState).2
    !! "output/transcription_20240131_230509_emacs_org_notes.org" =
    Some "#+title: Test".
Proof.
  assert (Hc : credential notesWorld notesState <> "") by discriminate.
  assert (Ha : AudioFilePath pipelineConfig <> "") by discriminate.
  split; [exact Hc|]. split; [exact Ha|].
  destruct (main_audio_to_notes pipelineConfig notesWorld notesState
              "RIFF" "reply" "reply" 200 200 {| Text := "hello world" |}
              {| Message := {| Content := "#+title: Test" |} |} [])
    as (H1 & H2 & _); [exact Hc | exact Ha | reflexivity ..|].
  split; [exact H1|]. rewrite H2.
  replace (generateOrgFilePath
             (timestampedPath "output" (outputName pipelineConfig) (Now notesWorld)))
    with "output/transcription_20240131_230509_emacs_org_notes.org"
    by (vm_compute; reflexivity).
  apply lookup_insert_eq.
Defined.

(** ** Where the transcription lands *)

Section LandingFacts.

(** The extension of a path is the extension of its file name. *)
Lemma Ext_file (a f : string) :
  sepFree f -> filepath.Ext (a +:+ "/" +:+ f) = filepath.Ext f.
Proof.
  intros Hf. destruct (last_dot f) as [Hd | (pre & e & -> & He)].
  - rewrite Ext_plain_last by now apply all_and.
    now rewrite Ext_dotFree.
  - assert (Hp : plain e).
    { apply all_and; [|exact He]. unfold sepFree in *.
      rewrite !str_all_app in Hf. apply andb_prop in Hf as [_ Hf].
      now apply andb_prop in Hf as [_ Hf]. }
    rewrite (Ext_dot pre e Hp).
    replace (a +:+ "/" +:+ pre +:+ "." +:+ e) with ((a +:+ "/" +:+ pre) +:+ "." +:+ e)
      by now rewrite !str_app_assoc.
    now apply Ext_dot.
Qed.

(** One step up from [output] is the working directory. *)
Lemma Clean_up_from_output (x : string) :
  real x -> filepath.Clean ("output/../" +:+ x) = x.
Proof.
  intros Hx. rewrite Clean_elements.
  change ("output/../" +:+ x) with ("output" +:+ "/" +:+ ".." +:+ "/" +:+ x).
  unfold filepath.scan. rewrite !elements_app.
  rewrite (elements_sepFree x) by now destruct Hx as (_ & _ & _ & H).
  simpl. rewrite cleanStep_real by assumption.
  unfold filepath.render. simpl.
  destruct Hx as (Hne & _). now destruct (String.eqb_spec x "").
Qed.

Lemma processTranscription_path (config : Config) (w : World) (s : State)
    (transcriptionText outputFilePath : string) (s' : State) :
  AudioFilePath config <> "" ->
  processTranscription config w s = (Done (transcriptionText, outputFilePath), s') ->
  outputFilePath = timestampedPath "output" (outputName config) (Now w).
Proof.
  intros Ha. apply String.eqb_neq in Ha.
  unfold processTranscription, transcribeAudio, createOutputDir, writeToFile.
  fold (outputName config). rewrite Ha. simpl. run_ops. simpl.
  repeat (rewrite ?generateTimestampedFilePath_pure; simpl; try case_run);
    try discriminate; now intros [= <- <- <-].
Qed.

Lemma timestampedPath_output (baseFileName : string) (t : time.Time) :
  sepFree baseFileName ->
  exists stem,
    baseFileName = stem +:+ filepath.Ext baseFileName /\
    timestampedPath "output" baseFileName t =
    "output/" +:+ stem +:+ "_" +:+ stamp t +:+ filepath.Ext baseFileName.
Proof.
  intros Hbase.
  pose (w := mkWorld t (fun _ => TransportError "") (fun _ => inl "")
               (fun _ => inl "") (fun _ => inl "") (fun _ => None) (fun _ => None)).
  pose (s := mkState ∅ ∅ ∅ []).
  destruct (generateTimestampedFilePath_output baseFileName w s Hbase)
    as (stem & Hstem & Hrun).
  exists stem. split; [exact Hstem|].
  rewrite generateTimestampedFilePath_pure in Hrun. now injection Hrun.
Qed.

End LandingFacts.

(** X20. Whenever the audio branch returns, the transcription has been written
    under [output]: for an output name without separator the reference path
    is [output/<stem>_<stamp><ext>], and without an output name it is
    [output/transcription_<stamp>.txt]. *)
Theorem processTranscription_lands_in_output (config : Config) (w : World) (s : State)
    (transcriptionText outputFilePath : string) (s' : State) :
  AudioFilePath config <> "" ->
  sepFree (OutputFileName config) ->
  processTranscription config w s = (Done (transcriptionText, outputFilePath), s') ->
  (exists stem,
     outputName config = stem +:+ filepath.Ext (outputName config) /\
     outputFilePath =
       "output/" +:+ stem +:+ "_" +:+ stamp (Now w) +:+ filepath.Ext (outputName config)) /\
  (OutputFileName config = "" ->
   outputFilePath = "output/transcription_" +:+ stamp (Now w) +:+ ".txt").
Proof.
  intros Ha Hname Hrun.
  pose proof (processTranscription_path _ _ _ _ _ _ Ha Hrun) as ->.
  assert (Hout : sepFree (outputName config)).
  { unfold outputName. now destruct (String.eqb (OutputFileName config) ""). }
  destruct (timestampedPath_output (outputName config) (Now w) Hout)
    as (stem & Hstem & Hpath).
  split; [now exists stem|].
  intros Hempty. rewrite Hpath. unfold outputName in *. rewrite Hempty in *.
  simpl in *.
  assert (Hs : stem = "transcription")
    by (apply (str_app_inv_tail _ _ ".txt"); symmetry; exact Hstem).
  subst stem. reflexivity.
Qed.

Lemma processTranscription_lands_in_output_witness :
  exists s',
    AudioFilePath audioConfig <> "" /\ sepFree (OutputFileName audioConfig) /\
    OutputFileName audioConfig = "" /\
    processTranscription audioConfig notesWorld notesState =
      (Done ("hello world", "output/transcription_20240131_230509.txt"), s') /\
    "output/transcription_20240131_230509.txt" =
      "output/transcription_" +:+ stamp (Now notesWorld) +:+ ".txt".
Proof.
  assert (Ha : AudioFilePath audioConfig <> "") by discriminate.
  remember (processTranscription audioConfig notesWorld notesState) as r eqn:Hr.
  assert (H1 : r.1 = Done ("hello world", "output/transcription_20240131_230509.txt"))
    by (subst r; vm_compute; reflexivity).
  destruct r as [o s']. simpl in H1. subst o. symmetry in Hr.
  exists s'. split; [exact Ha|]. split; [reflexivity|]. split; [reflexivity|].
  split; [reflexivity|].
  destruct (processTranscription_lands_in_output audioConfig notesWorld notesState
              _ _ _ Ha eq_refl Hr) as [_ H].
  exact (H eq_refl).
Defined.

(** X21. The output name is not confined to [output]: a name that starts with
    [../] takes the transcription one directory up, so that the stamped
    file is created in the working directory. *)
Theorem output_name_escapes (name : string) (w : World) (s : State) :
  sepFree name ->
  exists stem,
    name = stem +:+ filepath.Ext name /\
    generateTimestampedFilePath "output" ("../" +:+ name) w s =
    (Done (stem +:+ "_" +:+ stamp (Now w) +:+ filepath.Ext name), s).
Proof.
  intros Hname. destruct (Ext_suffix name) as [stem Hstem].
  exists stem. split; [exact Hstem|].
  assert (Hext : filepath.Ext ("../" +:+ name) = filepath.Ext name).
  { change ("../" +:+ name) with (".." +:+ "/" +:+ name). now apply Ext_file. }
  rewrite (generateTimestampedFilePath_run "output" ("../" +:+ name) ("../" +:+ stem)).
  - rewrite Hext. do 2 f_equal.
    assert (Hparts : sepFree stem /\ sepFree (filepath.Ext name)).
    { unfold sepFree in *. rewrite Hstem, str_all_app in Hname.
      now apply andb_prop in Hname. }
    destruct Hparts as [Hs He].
    rewrite Join_two by easy.
    change ("output" +:+ "/" +:+ ("../" +:+ stem) +:+ "_" +:+ stamp (Now w) +:+
            filepath.Ext name)
      with ("output/../" +:+ stem +:+ "_" +:+ stamp (Now w) +:+ filepath.Ext name).
    apply Clean_up_from_output, underscore_real; [assumption|].
    unfold sepFree in *. rewrite str_all_app, He.
    now rewrite (plain_sepFree _ (stamp_plain (Now w))).
  - rewrite Hext. simpl. now rewrite <- Hstem.
Qed.

Lemma output_name_escapes_witness :
  sepFree "talk.txt" /\
  generateTimestampedFilePath "output" "../talk.txt" notesWorld notesState =
    (Done "talk_20240131_230509.txt", notesState).
Proof.
  split; [reflexivity|].
  destruct (output_name_escapes "talk.txt" notesWorld notesState eq_refl)
    as (stem & Hstem & Hrun).
  assert (Hs : stem = "talk")
    by (apply (str_app_inv_tail _ _ ".txt"); symmetry; exact Hstem).
  etransitivity; [exact Hrun|]. rewrite Hs. reflexivity.
Defined.

(** ** Panics *)

Section PanicFacts.

Lemma processTranscription_no_panic (config : Config) (w : World) (s : State)
    (msg : string) :
  (processTranscription config w s).1 <> Panic msg.
Proof.
  unfold processTranscription, transcribeAudio, createOutputDir, writeToFile,
    readExistingTranscription.
  destruct (String.eqb (AudioFilePath config) ""); simpl.
  - destruct (String.eqb (TranscriptionFilePath config) ""); simpl; [discriminate|].
    run_ops. simpl. repeat case_run; discriminate.
  - run_ops. simpl.
    repeat (rewrite ?generateTimestampedFilePath_pure; simpl; try case_run);
      discriminate.
Qed.

End PanicFacts.

(** X22. The one run-time panic of the program: a run of [main] panics only in
    the completion stage, with the directive set, on a reply that is no
    error and decodes to no choice; no slice or index elsewhere is ever out
    of range. *)
Theorem main_panics_only_on_empty_choices
    (config : Config) (w : World) (s : State) (msg : string) :
  (main config w s).1 = Panic msg ->
  msg = "index out of range [0] with length 0" /\
  PostProcessCmd config = "create_emacs_org_notes" /\
  exists transcriptionText code body,
    Post w (chatRequest transcriptionText (credential w s)) = Reply code body /\
    IsError code = false /\
    unmarshalOpenAI w body = inr {| Choices := [] |}.
Proof.
  rewrite main_run.
  destruct (String.eqb (credential w s) ""); [discriminate|].
  destruct (String.eqb (AudioFilePath config) "" &&
            String.eqb (TranscriptionFilePath config) ""); [discriminate|].
  pose proof (processTranscription_no_panic (withCredential config (credential w s)) w
                (afterLoadEnv w s)) as Hnp.
  destruct (processTranscription _ w (afterLoadEnv w s)) as [[[text path]| |m] s1];
    simpl; [|discriminate | intros [= ->]; now destruct (Hnp msg)].
  destruct (String.eqb_spec (PostProcessCmd config) "create_emacs_org_notes")
    as [Hd|Hd]; [|discriminate].
  unfold createEmacsOrgNotes, writeToFile, firstChoice. run_ops. simpl.
  destruct (Post w (chatRequest text (credential w s))) as [err|code body] eqn:Hp;
    simpl; [discriminate|].
  destruct (IsError code) eqn:Hc; simpl; [discriminate|].
  destruct (unmarshalOpenAI w body) as [err|[choices]] eqn:Hj; simpl; [discriminate|].
  destruct choices as [|choice others]; simpl.
  - intros [= <-]. split; [reflexivity|]. split; [exact Hd|].
    now exists text, code, body.
  - now destruct (writeError w (generateOrgFilePath path)).
Qed.

Lemma main_panics_only_on_empty_choices_witness :
  (main notesConfig emptyChoicesWorld notesState).1 =
    Panic "index out of range [0] with length 0" /\
  unmarshalOpenAI emptyChoicesWorld "reply" = inr {| Choices := [] |}.
Proof.
  assert (H : (main notesConfig emptyChoicesWorld notesState).1 =
              Panic "index out of range [0] with length 0")
    by (vm_compute; reflexivity).
  split; [exact H|].
  destruct (main_panics_only_on_empty_choices notesConfig emptyChoicesWorld notesState
              _ H) as (_ & _ & text & code & body & _ & _ & _).
  reflexivity.
Defined.
